(** * impros: the main window's drag-and-drop reordering and the
      interactive canvas's pan/zoom handlers

    A shallow embedding of [gui/main_window.py]: [MainWindow.find_insert_index],
    [MainWindow.dropEvent] and the event handlers of [InteractiveCanvas].

    Conventions.
    - Python floats are kept behind the interface [Arith]; the handlers are
      written once, over any carrier.  Two carriers are provided: IEEE-754
      binary64 (Rocq's primitive floats, the arithmetic Python executes) and
      exact rationals [Q].
    - A handler that can raise returns an [outcome]: the state of [self] when
      the handler returned or when the exception left it.
    - What the UI toolkit and the plotting library compute (geometry tests,
      the pixel-to-data transform, truth value of a point) is a section
      variable: the theorems hold whatever these functions are. *)

From Stdlib Require Import ZArith QArith Qfield Bool List String Lia Floats.
From Stdlib Require Import Permutation.
From Stdlib Require Uint63.
Import ListNotations.

Set Warnings "-inexact-float".
Local Open Scope Z_scope.

(* ===================================================================== *)
(** * 1. Arithmetic of the coordinates                                    *)
(* ===================================================================== *)

(** The operations the handlers use on limits and cursor coordinates.
    [of_int] is Python's implicit int-to-float conversion in mixed
    expressions ([max(0, x)], [dx / self.width()]); [lit_1_05] and
    [lit_0_95] are the literals [1.05] and [0.95]. *)
Class Arith (F : Type) : Type := {
  of_int : Z -> F;
  lit_1_05 : F;
  lit_0_95 : F;
  fadd : F -> F -> F;
  fsub : F -> F -> F;
  fmul : F -> F -> F;
  fdiv : F -> F -> F;
  flt : F -> F -> bool;
  fle : F -> F -> bool
}.

Declare Scope py_scope.
Delimit Scope py_scope with py.
Notation "x + y" := (fadd x y) : py_scope.
Notation "x - y" := (fsub x y) : py_scope.
Notation "x * y" := (fmul x y) : py_scope.
Notation "x / y" := (fdiv x y) : py_scope.
Notation "x <? y" := (flt x y) : py_scope.
Notation "x >? y" := (flt y x) : py_scope.
Notation "x <=? y" := (fle x y) : py_scope.
Notation "x >=? y" := (fle y x) : py_scope.

(** Exact rational arithmetic. *)
#[export] Instance Q_Arith : Arith Q := {
  of_int := inject_Z;
  lit_1_05 := (21 # 20)%Q;
  lit_0_95 := (19 # 20)%Q;
  fadd := Qplus;
  fsub := Qminus;
  fmul := Qmult;
  fdiv := Qdiv;
  flt := fun x y => negb (Qle_bool y x);
  fle := Qle_bool
}.

(** Int-to-float conversion of a (small) Python int: exact below 2^53, and
    pixel sizes and wheel deltas are far below. *)
Definition float_of_int (z : Z) : float :=
  if z <? 0 then PrimFloat.opp (PrimFloat.of_uint63 (Uint63.of_Z (- z)))
  else PrimFloat.of_uint63 (Uint63.of_Z z).

(** IEEE-754 binary64, round to nearest even: the arithmetic of Python's
    [float] and of the [numpy.float64] values the plotting library returns. *)
#[export] Instance Binary64_Arith : Arith float := {
  of_int := float_of_int;
  lit_1_05 := 1.05%float;
  lit_0_95 := 0.95%float;
  fadd := PrimFloat.add;
  fsub := PrimFloat.sub;
  fmul := PrimFloat.mul;
  fdiv := PrimFloat.div;
  flt := PrimFloat.ltb;
  fle := PrimFloat.leb
}.

(** [max(a, b)] and [min(a, b)] of two arguments, as the interpreter
    evaluates them: the first argument is kept unless the second is
    strictly greater (smaller). *)
Definition py_max {F} `{Arith F} (a b : F) : F := if (b >? a)%py then b else a.
Definition py_min {F} `{Arith F} (a b : F) : F := if (b <? a)%py then b else a.

(** Laws of the comparisons that hold on every carrier, binary64 with its
    NaN included. *)
Class OrderLaws (F : Type) `{Arith F} : Prop := {
  flt_fle : forall x y : F, (x <? y)%py = true -> (x <=? y)%py = true;
  fle_zero : (of_int 0 <=? of_int 0)%py = true
}.

(** Two values compare: [x < y] holds exactly when [y <= x] fails.  Any
    two rationals compare; two binary64 values compare exactly when
    neither is NaN ([binary64_compares] below). *)
Definition compares {F} `{Arith F} (x y : F) : Prop :=
  (x <? y)%py = negb (y <=? x)%py.

(* ===================================================================== *)
(** * 2. MainWindow: the drop position and the drop handler               *)
(* ===================================================================== *)

Section MainWindow.

(** Points and rectangles of the toolkit, and [QRect.contains(QPoint)]. *)
Context {QPoint QRect : Type}.
Variable contains : QRect -> QPoint -> bool.

(** A widget: its identity as an object, whether it is an instance of
    [toolbox_bases.Toolbox], and its current [geometry()]. *)
Record QWidget : Type := {
  wid : nat;
  isinstance_Toolbox : bool;
  geometry : QRect
}.

(** [w1 != w2] on widgets compares object identity. *)
Definition same_object (w1 w2 : QWidget) : bool := Nat.eqb (wid w1) (wid w2).

(** An item of a box layout; [widget()] is [None] for an item that holds
    no widget. *)
Inductive QLayoutItem : Type :=
| WidgetItem (w : QWidget)
| SpacerItem.

Definition widget (it : QLayoutItem) : option QWidget :=
  match it with WidgetItem w => Some w | SpacerItem => None end.

Record MainWindow : Type := {
  contentLayout : list QLayoutItem;
  add_new_box : QWidget
}.

Definition count (layout : list QLayoutItem) : Z := Z.of_nat (List.length layout).
Definition itemAt (layout : list QLayoutItem) (i : nat) : option QLayoutItem :=
  nth_error layout i.

(** The test of lines 287-289 on the item at index [i]: a widget that is
    not [add_new_box] and whose geometry contains [pos]. *)
Definition accepts_drop (self : MainWindow) (pos : QPoint) (i : nat) : bool :=
  match itemAt (contentLayout self) i with
  | Some it =>
      match widget it with
      | Some w => negb (same_object w (add_new_box self)) && contains (geometry w) pos
      | None => false
      end
  | None => false
  end.

(** The [for i in range(...)] loop of [find_insert_index]: the first index
    of the range that passes the test, [None] when the loop runs out. *)
Fixpoint find_insert_loop (self : MainWindow) (pos : QPoint) (range : list nat)
  : option nat :=
  match range with
  | [] => None
  | i :: rest =>
      if accepts_drop self pos i then Some i
      else find_insert_loop self pos rest
  end.

Definition find_insert_index (self : MainWindow) (pos : QPoint) : Z :=
  match find_insert_loop self pos (seq 0 (List.length (contentLayout self))) with
  | Some i => Z.of_nat i
  | None => count (contentLayout self) - 1
  end.

(** [QBoxLayout.removeWidget(w)]: the first item holding [w] leaves the
    layout; nothing happens when no item holds it. *)
Fixpoint layout_removeWidget (layout : list QLayoutItem) (w : QWidget)
  : list QLayoutItem :=
  match layout with
  | [] => []
  | it :: rest =>
      match widget it with
      | Some w' => if same_object w' w then rest
                   else it :: layout_removeWidget rest w
      | None => it :: layout_removeWidget rest w
      end
  end.

(** [QBoxLayout.insertWidget(index, w)]: a negative index appends; an index
    up to [count()] inserts before the item now at that index. *)
Definition layout_insertWidget (layout : list QLayoutItem) (index : Z) (w : QWidget)
  : list QLayoutItem :=
  if index <? 0 then layout ++ [WidgetItem w]
  else firstn (Z.to_nat index) layout ++ WidgetItem w :: skipn (Z.to_nat index) layout.

(** The drop event: where it landed and the widget being dragged
    ([event.source()] is [None] for a drag from another application). *)
Record QDropEvent : Type := {
  drop_position : QPoint;
  drop_source : option QWidget
}.

(** The calls [dropEvent] makes on its collaborators, in program order. *)
Inductive call : Type :=
| pipeline_move_step (source : QWidget) (index : Z)
| contentLayout_removeWidget (source : QWidget)
| contentLayout_insertWidget (index : Z) (source : QWidget)
| event_acceptProposedAction
| pipeline_on_change.

(** [dropEvent]: the window after the handler, and the calls it made. *)
Definition dropEvent (self : MainWindow) (event : QDropEvent)
  : MainWindow * list call :=
  let pos := drop_position event in
  let source := drop_source event in
  let index := find_insert_index self pos in
  match source with
  | Some src =>
      if isinstance_Toolbox src then
        let layout1 := layout_removeWidget (contentLayout self) src in
        let layout2 := layout_insertWidget layout1 index src in
        ({| contentLayout := layout2; add_new_box := add_new_box self |},
         [ pipeline_move_step src index;
           contentLayout_removeWidget src;
           contentLayout_insertWidget index src;
           event_acceptProposedAction;
           pipeline_on_change ])
      else (self, [])
  | None => (self, [])
  end.

(** ** Notions used in the statements about the drop *)

(** The item at layout index [i] holds a widget that is not [add_new_box]
    and whose geometry contains [pos]. *)
Definition is_drop_target (self : MainWindow) (pos : QPoint) (i : nat) : Prop :=
  exists w : QWidget,
    nth_error (contentLayout self) i = Some (WidgetItem w) /\
    wid w <> wid (add_new_box self) /\
    contains (geometry w) pos = true.

(** [i] is the first drop target in increasing index order. *)
Definition first_drop_target (self : MainWindow) (pos : QPoint) (i : nat) : Prop :=
  is_drop_target self pos i /\
  forall j, (j < i)%nat -> ~ is_drop_target self pos j.

(** The calls of a trace that reach the pipeline or the event. *)
Definition reorders (calls : list call) : Prop :=
  exists src index, In (pipeline_move_step src index) calls.

End MainWindow.

(* ===================================================================== *)
(** * 3. InteractiveCanvas: state and event handlers                      *)
(* ===================================================================== *)

Section InteractiveCanvas.

Context {F : Type} {arith : Arith F}.
Local Open Scope py_scope.

(** [QPointF]: the position an event reports, with [x()] and [y()]. *)
Record QPointF : Type := { x : F; y : F }.

(** The plotting library's axes, reduced to the view limits they store:
    [get_xlim()] returns the pair last given to [set_xlim], and [clear()]
    restores the default view [(0, 1)]. *)
Record Axes : Type := { xlim : F * F; ylim : F * F }.

Definition get_xlim (ax : Axes) : F * F := xlim ax.
Definition get_ylim (ax : Axes) : F * F := ylim ax.
Definition set_xlim (ax : Axes) (lim : F * F) : Axes :=
  {| xlim := lim; ylim := ylim ax |}.
Definition set_ylim (ax : Axes) (lim : F * F) : Axes :=
  {| xlim := xlim ax; ylim := lim |}.
Definition clear (ax : Axes) : Axes :=
  {| xlim := (of_int 0, of_int 1); ylim := (of_int 0, of_int 1) |}.

(** What the toolkit and the plotting library decide: the pixel-to-data
    transform [self._axes.transData.inverted().transform((x, y))] and the
    truth value of a [QPointF] in a condition. *)
Variable transData_inverted_transform : Axes -> F * F -> F * F.
Variable QPointF_bool : QPointF -> bool.

(** The values [self._xlim] and [self._ylim] take: [None] after
    [__init__], the int [0] after [reset_plot], or a pair of limits (a list
    or the tuple [get_xlim] returned). *)
Inductive limits : Type :=
| LimNone
| LimZero
| Lim (lim : F * F).

Inductive MouseButton : Type := LeftButton | RightButton | MiddleButton | NoButton.

Definition is_LeftButton (b : MouseButton) : bool :=
  match b with LeftButton => true | _ => false end.

Record QWheelEvent : Type := {
  wheel_position : QPointF;
  angleDelta_y : Z
}.

Record QMouseEvent : Type := {
  button : MouseButton;
  position : QPointF
}.

Record InteractiveCanvas : Type := {
  _axes : option Axes;
  _is_panning : bool;
  _pan_start : option QPointF;
  _xlim : limits;
  _ylim : limits;
  _orig_xlim : option (F * F);
  _orig_ylim : option (F * F);
  lock_x_zoom : bool;
  lock_y_zoom : bool;
  is_zoomed : bool;
  plot_type : string;
  width : Z;
  height : Z
}.

(** Attribute assignments [self.<field> = v]. *)
Definition set__axes (self : InteractiveCanvas) (v : option Axes) :=
  {| _axes := v; _is_panning := _is_panning self; _pan_start := _pan_start self;
     _xlim := _xlim self; _ylim := _ylim self;
     _orig_xlim := _orig_xlim self; _orig_ylim := _orig_ylim self;
     lock_x_zoom := lock_x_zoom self; lock_y_zoom := lock_y_zoom self;
     is_zoomed := is_zoomed self; plot_type := plot_type self;
     width := width self; height := height self |}.
Definition set__is_panning (self : InteractiveCanvas) (v : bool) :=
  {| _axes := _axes self; _is_panning := v; _pan_start := _pan_start self;
     _xlim := _xlim self; _ylim := _ylim self;
     _orig_xlim := _orig_xlim self; _orig_ylim := _orig_ylim self;
     lock_x_zoom := lock_x_zoom self; lock_y_zoom := lock_y_zoom self;
     is_zoomed := is_zoomed self; plot_type := plot_type self;
     width := width self; height := height self |}.
Definition set__pan_start (self : InteractiveCanvas) (v : option QPointF) :=
  {| _axes := _axes self; _is_panning := _is_panning self; _pan_start := v;
     _xlim := _xlim self; _ylim := _ylim self;
     _orig_xlim := _orig_xlim self; _orig_ylim := _orig_ylim self;
     lock_x_zoom := lock_x_zoom self; lock_y_zoom := lock_y_zoom self;
     is_zoomed := is_zoomed self; plot_type := plot_type self;
     width := width self; height := height self |}.
Definition set__xlim (self : InteractiveCanvas) (v : limits) :=
  {| _axes := _axes self; _is_panning := _is_panning self; _pan_start := _pan_start self;
     _xlim := v; _ylim := _ylim self;
     _orig_xlim := _orig_xlim self; _orig_ylim := _orig_ylim self;
     lock_x_zoom := lock_x_zoom self; lock_y_zoom := lock_y_zoom self;
     is_zoomed := is_zoomed self; plot_type := plot_type self;
     width := width self; height := height self |}.
Definition set__ylim (self : InteractiveCanvas) (v : limits) :=
  {| _axes := _axes self; _is_panning := _is_panning self; _pan_start := _pan_start self;
     _xlim := _xlim self; _ylim := v;
     _orig_xlim := _orig_xlim self; _orig_ylim := _orig_ylim self;
     lock_x_zoom := lock_x_zoom self; lock_y_zoom := lock_y_zoom self;
     is_zoomed := is_zoomed self; plot_type := plot_type self;
     width := width self; height := height self |}.
Definition set__orig_xlim (self : InteractiveCanvas) (v : option (F * F)) :=
  {| _axes := _axes self; _is_panning := _is_panning self; _pan_start := _pan_start self;
     _xlim := _xlim self; _ylim := _ylim self;
     _orig_xlim := v; _orig_ylim := _orig_ylim self;
     lock_x_zoom := lock_x_zoom self; lock_y_zoom := lock_y_zoom self;
     is_zoomed := is_zoomed self; plot_type := plot_type self;
     width := width self; height := height self |}.
Definition set__orig_ylim (self : InteractiveCanvas) (v : option (F * F)) :=
  {| _axes := _axes self; _is_panning := _is_panning self; _pan_start := _pan_start self;
     _xlim := _xlim self; _ylim := _ylim self;
     _orig_xlim := _orig_xlim self; _orig_ylim := v;
     lock_x_zoom := lock_x_zoom self; lock_y_zoom := lock_y_zoom self;
     is_zoomed := is_zoomed self; plot_type := plot_type self;
     width := width self; height := height self |}.
Definition set_lock_x_zoom (self : InteractiveCanvas) (v : bool) :=
  {| _axes := _axes self; _is_panning := _is_panning self; _pan_start := _pan_start self;
     _xlim := _xlim self; _ylim := _ylim self;
     _orig_xlim := _orig_xlim self; _orig_ylim := _orig_ylim self;
     lock_x_zoom := v; lock_y_zoom := lock_y_zoom self;
     is_zoomed := is_zoomed self; plot_type := plot_type self;
     width := width self; height := height self |}.
Definition set_lock_y_zoom (self : InteractiveCanvas) (v : bool) :=
  {| _axes := _axes self; _is_panning := _is_panning self; _pan_start := _pan_start self;
     _xlim := _xlim self; _ylim := _ylim self;
     _orig_xlim := _orig_xlim self; _orig_ylim := _orig_ylim self;
     lock_x_zoom := lock_x_zoom self; lock_y_zoom := v;
     is_zoomed := is_zoomed self; plot_type := plot_type self;
     width := width self; height := height self |}.
Definition set_is_zoomed (self : InteractiveCanvas) (v : bool) :=
  {| _axes := _axes self; _is_panning := _is_panning self; _pan_start := _pan_start self;
     _xlim := _xlim self; _ylim := _ylim self;
     _orig_xlim := _orig_xlim self; _orig_ylim := _orig_ylim self;
     lock_x_zoom := lock_x_zoom self; lock_y_zoom := lock_y_zoom self;
     is_zoomed := v; plot_type := plot_type self;
     width := width self; height := height self |}.
Definition set_plot_type_field (self : InteractiveCanvas) (v : string) :=
  {| _axes := _axes self; _is_panning := _is_panning self; _pan_start := _pan_start self;
     _xlim := _xlim self; _ylim := _ylim self;
     _orig_xlim := _orig_xlim self; _orig_ylim := _orig_ylim self;
     lock_x_zoom := lock_x_zoom self; lock_y_zoom := lock_y_zoom self;
     is_zoomed := is_zoomed self; plot_type := v;
     width := width self; height := height self |}.
Definition set_size (self : InteractiveCanvas) (w h : Z) :=
  {| _axes := _axes self; _is_panning := _is_panning self; _pan_start := _pan_start self;
     _xlim := _xlim self; _ylim := _ylim self;
     _orig_xlim := _orig_xlim self; _orig_ylim := _orig_ylim self;
     lock_x_zoom := lock_x_zoom self; lock_y_zoom := lock_y_zoom self;
     is_zoomed := is_zoomed self; plot_type := plot_type self;
     width := w; height := h |}.

(** Exceptions the handlers can raise. *)
Inductive exn : Type := TypeError | AttributeError | ZeroDivisionError.

(** How a handler ends, with the state of [self] at that point. *)
Inductive outcome : Type :=
| Returned (self : InteractiveCanvas)
| Raised (e : exn) (self : InteractiveCanvas).

Definition state_of (o : outcome) : InteractiveCanvas :=
  match o with Returned s => s | Raised _ s => s end.

(** [__init__] on a widget of the given size: fresh axes from
    [add_subplot(111)]. *)
Definition __init__ (w h : Z) : InteractiveCanvas :=
  {| _axes := Some {| xlim := (of_int 0, of_int 1); ylim := (of_int 0, of_int 1) |};
     _is_panning := false; _pan_start := None;
     _xlim := LimNone; _ylim := LimNone;
     _orig_xlim := None; _orig_ylim := None;
     lock_x_zoom := false; lock_y_zoom := false;
     is_zoomed := false; plot_type := "image";
     width := w; height := h |}.

(** The view limits of the canvas's axes, when it has axes. *)
Definition axes_xlim (self : InteractiveCanvas) : option (F * F) :=
  option_map get_xlim (_axes self).
Definition axes_ylim (self : InteractiveCanvas) : option (F * F) :=
  option_map get_ylim (_axes self).

(** Lines 461-463 and 484-486, [if self._xlim and self._ylim]: the
    remembered limits are set again when both are pairs ([None] and [0]
    are false in a condition, a pair is true). *)
Definition reapply_limits (self : InteractiveCanvas) (ax : Axes) : Axes :=
  match _xlim self, _ylim self with
  | Lim lx, Lim ly => set_ylim (set_xlim ax lx) ly
  | _, _ => ax
  end.

Definition configure_imgae_plot (self : InteractiveCanvas) : outcome :=
  match _axes self with
  | None => Raised AttributeError self
  | Some ax =>
      let self1 :=
        if negb (is_zoomed self)
        then set__orig_ylim (set__orig_xlim self (Some (get_xlim ax))) (Some (get_ylim ax))
        else self in
      Returned (set__axes self1 (Some (reapply_limits self1 ax)))
  end.

Definition configure_hist_plot (self : InteractiveCanvas) : outcome :=
  match _axes self with
  | None => Raised AttributeError self
  | Some ax =>
      let ax1 :=
        if negb (is_zoomed self) then set_xlim ax (of_int (-1), of_int 256) else ax in
      Returned (set__axes self (Some (reapply_limits self ax1)))
  end.

Definition reset_plot (self : InteractiveCanvas) : outcome :=
  match _axes self with
  | None => Raised AttributeError self
  | Some ax =>
      Returned
        (set__ylim (set__xlim (set_is_zoomed (set__axes self (Some (clear ax))) false)
                      LimZero) LimZero)
  end.

Definition set_plot_type (self : InteractiveCanvas) (new_type : string) : outcome :=
  match _axes self with
  | None => Raised AttributeError self
  | Some ax => Returned (set_plot_type_field (set__axes self (Some (clear ax))) new_type)
  end.

Definition reset_zoom (self : InteractiveCanvas) : outcome := reset_plot self.

(** ** wheelEvent *)

(** Lines 352-359: the candidate limits around the cursor's data
    coordinate. *)
Definition zoom_limits (data : F) (lim : F * F) (factor : F) : F * F :=
  (data - (data - fst lim) * factor, data + (snd lim - data) * factor).

(** Lines 368-384: zoom locks, the new axes limits, the reconfiguration of
    the figure, and the [is_zoomed] flag. *)
Definition wheel_apply (self : InteractiveCanvas) (ax : Axes)
    (xlim ylim new_xlim new_ylim : F * F) : outcome :=
  let lx := if lock_x_zoom self then xlim else new_xlim in
  let ly := if lock_y_zoom self then ylim else new_ylim in
  let self1 := set__ylim (set__xlim self (Lim lx)) (Lim ly) in
  let ax1 := set_ylim (set_xlim ax lx) ly in
  let self2 := set__axes self1 (Some ax1) in
  let configured :=
    if (plot_type self2 =? "image")%string then configure_imgae_plot self2
    else if (plot_type self2 =? "histogram")%string then configure_hist_plot self2
    else Returned self2 in
  match configured with
  | Returned self3 => Returned (set_is_zoomed self3 true)
  | Raised e self3 => Raised e self3
  end.

Definition wheelEvent (self : InteractiveCanvas) (event : QWheelEvent) : outcome :=
  match _axes self with
  | None => Returned self
  | Some ax =>
      let pos := wheel_position event in
      let data := transData_inverted_transform ax (x pos, y pos) in
      let xdata := fst data in
      let ydata := snd data in
      let xlim := get_xlim ax in
      let ylim := get_ylim ax in
      let step := angleDelta_y event in
      let factor := if (step <? 0)%Z then lit_1_05 else lit_0_95 in
      let new_xlim := zoom_limits xdata xlim factor in
      let new_ylim := zoom_limits ydata ylim factor in
      if negb (plot_type self =? "histogram")%string then
        let x0 := py_max (of_int 0) (fst new_xlim) in
        let y1 := py_max (of_int 0) (snd new_ylim) in
        match _orig_xlim self with
        | None =>
            Raised TypeError
              (set__ylim (set__xlim self (Lim (x0, snd new_xlim)))
                         (Lim (fst new_ylim, y1)))
        | Some orig_xlim =>
            let x1 := py_min (snd orig_xlim) (snd new_xlim) in
            match _orig_ylim self with
            | None =>
                Raised TypeError
                  (set__ylim (set__xlim self (Lim (x0, x1))) (Lim (fst new_ylim, y1)))
            | Some orig_ylim =>
                let y0 := py_min (fst orig_ylim) (fst new_ylim) in
                wheel_apply self ax xlim ylim (x0, x1) (y0, y1)
            end
        end
      else wheel_apply self ax xlim ylim new_xlim new_ylim
  end.

(** ** Mouse handlers *)

Definition mousePressEvent (self : InteractiveCanvas) (event : QMouseEvent) : outcome :=
  if is_LeftButton (button event)
  then Returned (set__pan_start (set__is_panning self true) (Some (position event)))
  else Returned self.

Definition mouseReleaseEvent (self : InteractiveCanvas) (event : QMouseEvent) : outcome :=
  if is_LeftButton (button event)
  then Returned (set__pan_start (set__is_panning self false) None)
  else Returned self.

(** The condition [self._is_panning and self._pan_start]. *)
Definition pan_active (self : InteractiveCanvas) : bool :=
  _is_panning self &&
  match _pan_start self with Some p => QPointF_bool p | None => false end.

(** Lines 416-423: both limits of an axis moved by the same data offset. *)
Definition pan_xlim (lim : F * F) (dx_data : F) : F * F :=
  (fst lim - dx_data, snd lim - dx_data).
Definition pan_ylim (lim : F * F) (dy_data : F) : F * F :=
  (fst lim + dy_data, snd lim + dy_data).

(** Lines 435-438, the end of a pan step. *)
Definition pan_finish (self : InteractiveCanvas) (ax : Axes) (event : QMouseEvent)
  : outcome :=
  Returned (set_is_zoomed (set__pan_start (set__axes self (Some ax))
                             (Some (position event))) true).

(** Line 430-431: the x limits are set unless the guard rejects them.
    [None] stands for the [TypeError] of [self._orig_xlim[1]] when no
    original limits are recorded; the [or] does not read them when its
    first operand already holds. *)
Definition pan_set_xlim (self : InteractiveCanvas) (ax : Axes) (new_xlim : F * F)
  : option Axes :=
  if fst new_xlim <? of_int 0 then Some ax
  else
    match _orig_xlim self with
    | None => None
    | Some orig_xlim =>
        Some (if snd new_xlim >? snd orig_xlim then ax else set_xlim ax new_xlim)
    end.

(** Line 432-433, for the (inverted) y axis. *)
Definition pan_set_ylim (self : InteractiveCanvas) (ax : Axes) (new_ylim : F * F)
  : option Axes :=
  if snd new_ylim <? of_int 0 then Some ax
  else
    match _orig_ylim self with
    | None => None
    | Some orig_ylim =>
        Some (if fst new_ylim >? fst orig_ylim then ax else set_ylim ax new_ylim)
    end.

Definition mouseMoveEvent (self : InteractiveCanvas) (event : QMouseEvent) : outcome :=
  if pan_active self then
    match _pan_start self with
    | None => Returned self
    | Some start =>
        let dx := x (position event) - x start in
        let dy := y (position event) - y start in
        if (width self =? 0)%Z then Raised ZeroDivisionError self else
        match _axes self with
        | None => Raised AttributeError self
        | Some ax =>
            let dx_data :=
              dx / of_int (width self) * (snd (get_xlim ax) - fst (get_xlim ax)) in
            if (height self =? 0)%Z then Raised ZeroDivisionError self else
            let dy_data :=
              dy / of_int (height self) * (snd (get_ylim ax) - fst (get_ylim ax)) in
            let new_xlim := pan_xlim (get_xlim ax) dx_data in
            let new_ylim := pan_ylim (get_ylim ax) dy_data in
            let self1 := set__ylim (set__xlim self (Lim new_xlim)) (Lim new_ylim) in
            if (plot_type self =? "histogram")%string then
              pan_finish self1 (set_ylim (set_xlim ax new_xlim) new_ylim) event
            else
              match pan_set_xlim self1 ax new_xlim with
              | None => Raised TypeError self1
              | Some ax1 =>
                  match pan_set_ylim self1 ax1 new_ylim with
                  | None => Raised TypeError (set__axes self1 (Some ax1))
                  | Some ax2 => pan_finish self1 ax2 event
                  end
              end
        end
    end
  else Returned self.

(** ** The canvas as a state machine *)

(** What can happen to a canvas: its Qt event handlers, its public
    methods, the [setattr] of the zoom-lock check boxes (lines 146-149 of
    [init_top_layout]) and a change of the widget's size. *)
Inductive event : Type :=
| Wheel (e : QWheelEvent)
| MousePress (e : QMouseEvent)
| MouseMove (e : QMouseEvent)
| MouseRelease (e : QMouseEvent)
| ConfigureImagePlot
| ConfigureHistPlot
| ResetPlot
| SetPlotType (new_type : string)
| ResetZoom
| ToggleLockX (checked : bool)
| ToggleLockY (checked : bool)
| Resize (w h : Z).

Definition handle (self : InteractiveCanvas) (ev : event) : outcome :=
  match ev with
  | Wheel e => wheelEvent self e
  | MousePress e => mousePressEvent self e
  | MouseMove e => mouseMoveEvent self e
  | MouseRelease e => mouseReleaseEvent self e
  | ConfigureImagePlot => configure_imgae_plot self
  | ConfigureHistPlot => configure_hist_plot self
  | ResetPlot => reset_plot self
  | SetPlotType t => set_plot_type self t
  | ResetZoom => reset_zoom self
  | ToggleLockX checked => Returned (set_lock_x_zoom self checked)
  | ToggleLockY checked => Returned (set_lock_y_zoom self checked)
  | Resize w h => Returned (set_size self w h)
  end.

(** A run of the event loop: an exception ends its handler and the loop
    goes on from the state the handler left. *)
Fixpoint run (self : InteractiveCanvas) (evs : list event) : InteractiveCanvas :=
  match evs with
  | [] => self
  | ev :: rest => run (state_of (handle self ev)) rest
  end.

(** Whether the history ends inside a pan window: after a left-button
    press that no left-button release has followed. *)
Fixpoint left_button_down (evs : list event) (down : bool) : bool :=
  match evs with
  | [] => down
  | MousePress e :: rest =>
      left_button_down rest (if is_LeftButton (button e) then true else down)
  | MouseRelease e :: rest =>
      left_button_down rest (if is_LeftButton (button e) then false else down)
  | _ :: rest => left_button_down rest down
  end.

(** ** Notions used in the statements about the canvas *)

(** What lines 341-359 of [wheelEvent] compute from the event and the
    axes: the cursor in data coordinates, the factor, and the candidate
    limits of each axis. *)
Definition wheel_factor (event : QWheelEvent) : F :=
  if (angleDelta_y event <? 0)%Z then lit_1_05 else lit_0_95.
Definition wheel_data (ax : Axes) (event : QWheelEvent) : F * F :=
  transData_inverted_transform ax (x (wheel_position event), y (wheel_position event)).
Definition wheel_new_xlim (ax : Axes) (event : QWheelEvent) : F * F :=
  zoom_limits (fst (wheel_data ax event)) (get_xlim ax) (wheel_factor event).
Definition wheel_new_ylim (ax : Axes) (event : QWheelEvent) : F * F :=
  zoom_limits (snd (wheel_data ax event)) (get_ylim ax) (wheel_factor event).

(** The candidate limits after the clamp of lines 363-366. *)
Definition clamped_xlim (orig_xlim new_xlim : F * F) : F * F :=
  (py_max (of_int 0) (fst new_xlim), py_min (snd orig_xlim) (snd new_xlim)).
Definition clamped_ylim (orig_ylim new_ylim : F * F) : F * F :=
  (py_min (fst orig_ylim) (fst new_ylim), py_max (of_int 0) (snd new_ylim)).

(** The data offsets of lines 408-413 of [mouseMoveEvent]. *)
Definition pan_dx_data (self : InteractiveCanvas) (ax : Axes) (start : QPointF)
    (event : QMouseEvent) : F :=
  (x (position event) - x start) / of_int (width self)
  * (snd (get_xlim ax) - fst (get_xlim ax)).
Definition pan_dy_data (self : InteractiveCanvas) (ax : Axes) (start : QPointF)
    (event : QMouseEvent) : F :=
  (y (position event) - y start) / of_int (height self)
  * (snd (get_ylim ax) - fst (get_ylim ax)).

(** The fields a handler leaves alone. *)
Definition same_pan_state (a b : InteractiveCanvas) : Prop :=
  _is_panning a = _is_panning b /\ _pan_start a = _pan_start b.
Definition same_settings (a b : InteractiveCanvas) : Prop :=
  lock_x_zoom a = lock_x_zoom b /\ lock_y_zoom a = lock_y_zoom b /\
  plot_type a = plot_type b /\ width a = width b /\ height a = height b.

(** The limits [wheelEvent] computes for an axis before the zoom locks
    apply: the candidate limits on a histogram canvas, the clamped
    candidate limits otherwise. *)
Definition wheel_zoomed_xlim (self : InteractiveCanvas) (ax : Axes)
    (event : QWheelEvent) (orig_xlim : F * F) : F * F :=
  if (plot_type self =? "histogram")%string then wheel_new_xlim ax event
  else clamped_xlim orig_xlim (wheel_new_xlim ax event).
Definition wheel_zoomed_ylim (self : InteractiveCanvas) (ax : Axes)
    (event : QWheelEvent) (orig_ylim : F * F) : F * F :=
  if (plot_type self =? "histogram")%string then wheel_new_ylim ax event
  else clamped_ylim orig_ylim (wheel_new_ylim ax event).

(** The guards of lines 430 and 432, as written:
    [not (lim[0] < 0 or lim[1] > orig[1])] and
    [not (lim[1] < 0 or lim[0] > orig[0])]. *)
Definition pan_x_guard (orig_xlim new_xlim : F * F) : bool :=
  negb ((fst new_xlim <? of_int 0) || (snd new_xlim >? snd orig_xlim)).
Definition pan_y_guard (orig_ylim new_ylim : F * F) : bool :=
  negb ((snd new_ylim <? of_int 0) || (fst new_ylim >? fst orig_ylim)).

(** The axis limits pass the guards of [mouseMoveEvent] against the
    recorded original limits: they are not below 0 and not beyond the
    original limit. *)
Definition passes_guards (self : InteractiveCanvas) : Prop :=
  exists ax orig_xlim orig_ylim,
    _axes self = Some ax /\
    _orig_xlim self = Some orig_xlim /\ _orig_ylim self = Some orig_ylim /\
    pan_x_guard orig_xlim (get_xlim ax) = true /\
    pan_y_guard orig_ylim (get_ylim ax) = true.

(** The axis limits lie within the original bounds, as the clamp and the
    guards understand them. *)
Definition within_bounds (self : InteractiveCanvas) : Prop :=
  exists ax orig_xlim orig_ylim,
    _axes self = Some ax /\
    _orig_xlim self = Some orig_xlim /\ _orig_ylim self = Some orig_ylim /\
    (fst (get_xlim ax) >=? of_int 0) = true /\
    (snd (get_xlim ax) <=? snd orig_xlim) = true /\
    (snd (get_ylim ax) >=? of_int 0) = true /\
    (fst (get_ylim ax) <=? fst orig_ylim) = true.

(** The axis limits are numbers: each of them compares with the bound
    the clamp and the guards test it against. *)
Definition limits_compare (self : InteractiveCanvas) : Prop :=
  exists ax orig_xlim orig_ylim,
    _axes self = Some ax /\
    _orig_xlim self = Some orig_xlim /\ _orig_ylim self = Some orig_ylim /\
    compares (fst (get_xlim ax)) (of_int 0) /\
    compares (snd orig_xlim) (snd (get_xlim ax)) /\
    compares (snd (get_ylim ax)) (of_int 0) /\
    compares (fst orig_ylim) (fst (get_ylim ax)).

(** No axis limit is outside its bound by the tests the code makes: each
    limit is within its bound, or fails the guard's test [lim < 0]
    (resp. [lim > orig]), or is the bound itself.  For limits that are
    numbers this is [within_bounds]. *)
Definition not_outside (self : InteractiveCanvas) : Prop :=
  exists ax orig_xlim orig_ylim,
    _axes self = Some ax /\
    _orig_xlim self = Some orig_xlim /\ _orig_ylim self = Some orig_ylim /\
    ((fst (get_xlim ax) >=? of_int 0) = true \/
     (fst (get_xlim ax) <? of_int 0) = false) /\
    ((snd (get_xlim ax) <=? snd orig_xlim) = true \/
     (snd (get_xlim ax) >? snd orig_xlim) = false \/
     snd (get_xlim ax) = snd orig_xlim) /\
    ((snd (get_ylim ax) >=? of_int 0) = true \/
     (snd (get_ylim ax) <? of_int 0) = false) /\
    ((fst (get_ylim ax) <=? fst orig_ylim) = true \/
     (fst (get_ylim ax) >? fst orig_ylim) = false \/
     fst (get_ylim ax) = fst orig_ylim).

(** The invariant: a canvas that is panning has a pan start. *)
Definition pan_invariant (self : InteractiveCanvas) : Prop :=
  _is_panning self = true -> _pan_start self <> None.

(** ** Notions used in the statements about the life of a canvas *)

(** What a canvas keeps from [__init__] on: it has axes, its two original
    limits are recorded together, and its two remembered limits are of one
    kind ([None], [0], or a pair each). *)
Definition well_formed (self : InteractiveCanvas) : Prop :=
  _axes self <> None /\
  (_orig_xlim self = None <-> _orig_ylim self = None) /\
  match _xlim self, _ylim self with
  | LimNone, LimNone | LimZero, LimZero | Lim _, Lim _ => True
  | _, _ => False
  end.

(** The events by which the user zooms and pans a displayed plot: wheel
    and mouse events and the zoom-lock check boxes.  The other events are
    calls of the canvas's methods by the code that draws, and a change of
    size, which comes with a redraw ([resizeEvent] of the window reruns the
    pipeline). *)
Definition is_interaction (ev : event) : bool :=
  match ev with
  | Wheel _ | MousePress _ | MouseMove _ | MouseRelease _
  | ToggleLockX _ | ToggleLockY _ => true
  | _ => false
  end.

(** The extent of an axis, [lim[1] - lim[0]], and the product of the
    factors of a sequence of wheel events. *)
Definition extent (lim : F * F) : F := snd lim - fst lim.

Fixpoint wheel_scale (events : list QWheelEvent) : F :=
  match events with
  | [] => of_int 1
  | e :: rest => wheel_factor e * wheel_scale rest
  end.

End InteractiveCanvas.

(** ** The zoom controls of [init_top_layout] *)

Section ZoomControls.

Context {F : Type} {arith : Arith F}.
Variable transData_inverted_transform : @Axes F -> F * F -> F * F.
Variable QPointF_bool : @QPointF F -> bool.

(** The two canvases of the window, lines 79 and 142. *)
Record Canvases : Type := {
  in_im_canvas : @InteractiveCanvas F;
  out_im_canvas : @InteractiveCanvas F
}.

Definition init_top_layout (w_in h_in w_out h_out : Z) : Canvases :=
  {| in_im_canvas := __init__ w_in h_in; out_im_canvas := __init__ w_out h_out |}.

(** What reaches the canvases: the signals connected at lines 146-150, and
    the events and method calls each canvas receives for itself. *)
Inductive signal : Type :=
| x_zoom_lock_btn_toggled (checked : bool)
| y_zoom_lock_btn_toggled (checked : bool)
| reset_zoom_btn_clicked
| to_in_im_canvas (ev : @event F)
| to_out_im_canvas (ev : @event F).

(** Lines 146-149: each [toggled] signal has two slots, run in the order
    of connection, one [setattr] per canvas.  Line 150: the list
    comprehension calls [reset_zoom] on the input canvas, then on the
    output canvas; an exception in the first call ends the slot.  The
    [plot_func] that [reset_zoom] calls after [reset_plot] is
    [display_histogram], which this file does not define: what it does to
    the canvases is a sequence of calls of their methods, that is, of
    [to_in_im_canvas] and [to_out_im_canvas] signals. *)
Definition emit (top : Canvases) (sg : signal) : Canvases :=
  match sg with
  | x_zoom_lock_btn_toggled checked =>
      {| in_im_canvas := set_lock_x_zoom (in_im_canvas top) checked;
         out_im_canvas := set_lock_x_zoom (out_im_canvas top) checked |}
  | y_zoom_lock_btn_toggled checked =>
      {| in_im_canvas := set_lock_y_zoom (in_im_canvas top) checked;
         out_im_canvas := set_lock_y_zoom (out_im_canvas top) checked |}
  | reset_zoom_btn_clicked =>
      match reset_zoom (in_im_canvas top) with
      | Returned s =>
          {| in_im_canvas := s;
             out_im_canvas := state_of (reset_zoom (out_im_canvas top)) |}
      | Raised _ s => {| in_im_canvas := s; out_im_canvas := out_im_canvas top |}
      end
  | to_in_im_canvas ev =>
      {| in_im_canvas :=
           state_of (handle transData_inverted_transform QPointF_bool (in_im_canvas top) ev);
         out_im_canvas := out_im_canvas top |}
  | to_out_im_canvas ev =>
      {| in_im_canvas := in_im_canvas top;
         out_im_canvas :=
           state_of (handle transData_inverted_transform QPointF_bool (out_im_canvas top) ev) |}
  end.

Fixpoint emit_all (top : Canvases) (sgs : list signal) : Canvases :=
  match sgs with
  | [] => top
  | sg :: rest => emit_all (emit top sg) rest
  end.

(** The [setattr] of a lock flag reaches a canvas through the check boxes
    only: what a canvas receives for itself is any other event. *)
Definition through_check_boxes (sg : signal) : bool :=
  match sg with
  | to_in_im_canvas (ToggleLockX _) | to_in_im_canvas (ToggleLockY _)
  | to_out_im_canvas (ToggleLockX _) | to_out_im_canvas (ToggleLockY _) => false
  | _ => true
  end.

(** The state of a check box after the signals: the last value it
    emitted, [checked] when it emitted none. *)
Fixpoint x_zoom_lock_btn_isChecked (sgs : list signal) (checked : bool) : bool :=
  match sgs with
  | [] => checked
  | x_zoom_lock_btn_toggled c :: rest => x_zoom_lock_btn_isChecked rest c
  | _ :: rest => x_zoom_lock_btn_isChecked rest checked
  end.
Fixpoint y_zoom_lock_btn_isChecked (sgs : list signal) (checked : bool) : bool :=
  match sgs with
  | [] => checked
  | y_zoom_lock_btn_toggled c :: rest => y_zoom_lock_btn_isChecked rest c
  | _ :: rest => y_zoom_lock_btn_isChecked rest checked
  end.

End ZoomControls.

(* ===================================================================== *)
(** * 4. The layout and the pipeline side by side                         *)
(* ===================================================================== *)

Section PipelineOrder.

Context {QPoint QRect : Type}.
Variable contains : QRect -> QPoint -> bool.

(** The widgets of a layout, by identity, in layout order. *)
Definition layout_ids (layout : list (@QLayoutItem QRect)) : list nat :=
  flat_map (fun it => match widget it with Some w => [wid w] | None => [] end) layout.

(** The layout holds the widget [w]: some item's widget is the same
    object. *)
Definition holds (layout : list (@QLayoutItem QRect)) (w : @QWidget QRect) : Prop :=
  In (wid w) (layout_ids layout).

(** The toolboxes the window shows, in layout order: every widget of
    [contentLayout] but the [add_new_box] footer. *)
Definition toolbox_ids (self : @MainWindow QRect) : list nat :=
  filter (fun i => negb (Nat.eqb i (wid (add_new_box self))))
         (layout_ids (contentLayout self)).

(** [pipeline.move_step] is not part of the window's code.  The pipeline is
    seen through the order of its steps (each named by its toolbox), and
    [move_step] through its effect on that order. *)
Variable move_step : list nat -> nat -> Z -> list nat.

Fixpoint pipeline_after (steps : list nat) (calls : list (@call QRect)) : list nat :=
  match calls with
  | [] => steps
  | pipeline_move_step source index :: rest =>
      pipeline_after (move_step steps (wid source) index) rest
  | _ :: rest => pipeline_after steps rest
  end.

(** One drop on a window and its pipeline. *)
Definition drop (st : @MainWindow QRect * list nat) (event : @QDropEvent QPoint QRect)
  : @MainWindow QRect * list nat :=
  (fst (dropEvent contains (fst st) event),
   pipeline_after (snd st) (snd (dropEvent contains (fst st) event))).

(** The layout shows the toolboxes in the order of the pipeline's steps. *)
Definition same_order (st : @MainWindow QRect * list nat) : Prop :=
  toolbox_ids (fst st) = snd st.

(** The layout is the pipeline's steps followed by the footer: the index
    of a toolbox in the layout is the index of its step. *)
Definition footer_last (st : @MainWindow QRect * list nat) : Prop :=
  layout_ids (contentLayout (fst st)) = snd st ++ [wid (add_new_box (fst st))].

End PipelineOrder.

(** ** A row of boxes: a concrete toolkit for running the handlers

    Points are abscissas, a rectangle is the closed interval it spans, and
    the layout places the item at index [i] on [[100 i, 100 i + 99]]. *)
Module BoxRow.

Definition contains (r : Z * Z) (p : Z) : bool := (fst r <=? p) && (p <=? snd r).

Definition slot (i : nat) : Z * Z := (100 * Z.of_nat i, 100 * Z.of_nat i + 99).

Fixpoint place (i : nat) (layout : list (@QLayoutItem (Z * Z)))
  : list (@QLayoutItem (Z * Z)) :=
  match layout with
  | [] => []
  | WidgetItem w :: rest =>
      WidgetItem {| wid := wid w; isinstance_Toolbox := isinstance_Toolbox w;
                    geometry := slot i |} :: place (S i) rest
  | SpacerItem :: rest => SpacerItem :: place (S i) rest
  end.

(** The layout pass that follows a change of the layout. *)
Definition do_layout (self : @MainWindow (Z * Z)) : @MainWindow (Z * Z) :=
  {| contentLayout := place 0 (contentLayout self); add_new_box := add_new_box self |}.

Definition toolbox (id : nat) : @QWidget (Z * Z) :=
  {| wid := id; isinstance_Toolbox := true; geometry := (0, 0) |}.
Definition footer : @QWidget (Z * Z) :=
  {| wid := 0; isinstance_Toolbox := false; geometry := (0, 0) |}.
Definition label : @QWidget (Z * Z) :=
  {| wid := 9; isinstance_Toolbox := false; geometry := (0, 0) |}.

(** Two toolboxes and the footer, laid out. *)
Definition window : @MainWindow (Z * Z) :=
  do_layout {| contentLayout := [WidgetItem (toolbox 1); WidgetItem (toolbox 2);
                                 WidgetItem footer];
               add_new_box := footer |}.

(** A drop of toolbox [id] at abscissa [p], followed by the layout pass. *)
Definition drop_at (move_step : list nat -> nat -> Z -> list nat)
    (st : @MainWindow (Z * Z) * list nat) (id : nat) (p : Z)
  : @MainWindow (Z * Z) * list nat :=
  let st' := drop contains move_step st
               {| drop_position := p; drop_source := Some (toolbox id) |} in
  (do_layout (fst st'), snd st').

End BoxRow.

(** ** Binary64: a 640 x 480 image shown in an 800 x 600 widget

    The transform is taken to be the identity (the cursor position is
    given in data coordinates), and a point is false in a condition when it
    is the null point. *)
Module Binary64Demo.

Local Open Scope float_scope.

Definition transform (ax : @Axes float) (p : float * float) : float * float := p.

Definition QPointF_bool (p : @QPointF float) : bool :=
  negb (PrimFloat.eqb (x p) 0 && PrimFloat.eqb (y p) 0).

(** The canvas once the image is displayed: the axes span the image and
    [configure_imgae_plot] has recorded these limits. *)
Definition image_axes : @Axes float :=
  {| xlim := (-0.5, 639.5); ylim := (479.5, -0.5) |}.

Definition image_canvas : @InteractiveCanvas float :=
  {| _axes := Some image_axes;
     _is_panning := false; _pan_start := None;
     _xlim := LimNone; _ylim := LimNone;
     _orig_xlim := Some (-0.5, 639.5); _orig_ylim := Some (479.5, -0.5);
     lock_x_zoom := false; lock_y_zoom := false;
     is_zoomed := false; plot_type := "image";
     width := 800; height := 600 |}.

(** A histogram canvas. *)
Definition histogram_axes : @Axes float :=
  {| xlim := (-1, 256); ylim := (0, 1050) |}.

Definition histogram_canvas : @InteractiveCanvas float :=
  {| _axes := Some histogram_axes;
     _is_panning := true; _pan_start := Some {| x := 400; y := 300 |};
     _xlim := LimNone; _ylim := LimNone;
     _orig_xlim := None; _orig_ylim := None;
     lock_x_zoom := false; lock_y_zoom := false;
     is_zoomed := false; plot_type := "histogram";
     width := 800; height := 600 |}.

(** One notch of the wheel away from the user (zoom in) with the cursor at
    data position (100, 100). *)
Definition wheel_in : @QWheelEvent float :=
  {| wheel_position := {| x := 100; y := 100 |}; angleDelta_y := 120 |}.

(** One notch towards the user (zoom out) at the same position. *)
Definition wheel_out : @QWheelEvent float :=
  {| wheel_position := {| x := 100; y := 100 |}; angleDelta_y := -120 |}.

Definition left_at (px py : float) : @QMouseEvent float :=
  {| button := LeftButton; position := {| x := px; y := py |} |}.

(** The image canvas after one zoom step, and after a press of the left
    button at pixel (400, 300). *)
Definition zoomed_canvas : @InteractiveCanvas float :=
  state_of (wheelEvent transform image_canvas wheel_in).

Definition pressed_canvas : @InteractiveCanvas float :=
  state_of (mousePressEvent zoomed_canvas (left_at 400 300)).

(** A pan of the pressed canvas: 4 pixels right and down, and then far
    beyond what the image has. *)
Definition pan_moves : list (@QMouseEvent float) :=
  [left_at 404 304; left_at 1400 (-900)].

(** What the user does on the pressed canvas: a pan step, a zoom step,
    the x lock, a zoom step out, a pan far beyond what the image has, and
    the release of the button. *)
Definition interaction : list (@event float) :=
  [MouseMove (left_at 404 304); Wheel wheel_in; ToggleLockX true;
   Wheel wheel_out; MouseMove (left_at 1400 (-900));
   MouseRelease (left_at 1400 (-900))].

(** A press of the left button at the null point, pixel (0, 0). *)
Definition press_at_origin : @QMouseEvent float := left_at 0 0.

(** The zoom controls and the canvases at work: the x lock checked, a
    zoom step on the input canvas, a reset, the y lock checked, the x
    lock unchecked, and a redraw of the output canvas. *)
Definition signals : list (@signal float) :=
  [x_zoom_lock_btn_toggled true; to_in_im_canvas (Wheel wheel_in);
   reset_zoom_btn_clicked; y_zoom_lock_btn_toggled true;
   x_zoom_lock_btn_toggled false; to_out_im_canvas ResetPlot;
   to_out_im_canvas ConfigureImagePlot].

End Binary64Demo.

(** ** Exact rationals: the same image, zoomed in *)
Module ExactDemo.

Local Open Scope Q_scope.

Definition transform (ax : @Axes Q) (p : Q * Q) : Q * Q := p.

Definition QPointF_bool (p : @QPointF Q) : bool :=
  negb (Qeq_bool (x p) 0 && Qeq_bool (y p) 0).

Definition zoomed_axes : @Axes Q :=
  {| xlim := (10, 600); ylim := (400, 20) |}.

(** A zoomed image canvas during a pan that started at pixel (400, 300). *)
Definition panning_canvas : @InteractiveCanvas Q :=
  {| _axes := Some zoomed_axes;
     _is_panning := true; _pan_start := Some {| x := 400; y := 300 |};
     _xlim := Lim (10, 600); _ylim := Lim (400, 20);
     _orig_xlim := Some (-1 # 2, 1279 # 2); _orig_ylim := Some (959 # 2, -1 # 2);
     lock_x_zoom := false; lock_y_zoom := false;
     is_zoomed := true; plot_type := "image";
     width := 800; height := 600 |}.

Definition wheel_in : @QWheelEvent Q :=
  {| wheel_position := {| x := 100; y := 100 |}; angleDelta_y := 120 |}.

Definition left_at (px py : Q) : @QMouseEvent Q :=
  {| button := LeftButton; position := {| x := px; y := py |} |}.

Definition wheel_out : @QWheelEvent Q :=
  {| wheel_position := {| x := 100; y := 100 |}; angleDelta_y := -120 |}.

(** The panning canvas after a move of 80 pixels to the right, which
    would take the x limits below 0. *)
Definition panned_canvas : @InteractiveCanvas Q :=
  state_of (mouseMoveEvent QPointF_bool panning_canvas (left_at 480 300)).

(** A histogram canvas during a pan that started at pixel (400, 300). *)
Definition histogram_axes : @Axes Q :=
  {| xlim := (-1, 256); ylim := (0, 1050) |}.

Definition histogram_canvas : @InteractiveCanvas Q :=
  {| _axes := Some histogram_axes;
     _is_panning := true; _pan_start := Some {| x := 400; y := 300 |};
     _xlim := LimNone; _ylim := LimNone;
     _orig_xlim := None; _orig_ylim := None;
     lock_x_zoom := false; lock_y_zoom := false;
     is_zoomed := false; plot_type := "histogram";
     width := 800; height := 600 |}.

End ExactDemo.

(* ===================================================================== *)
(** * 5. Theorems: the main window                                        *)
(* ===================================================================== *)

Section MainWindowFacts.

Context {QPoint QRect : Type}.
Variable contains : QRect -> QPoint -> bool.

Lemma accepts_drop_spec (self : @MainWindow QRect) (pos : QPoint) (i : nat) :
  accepts_drop contains self pos i = true <-> is_drop_target contains self pos i.
Proof.
  unfold accepts_drop, is_drop_target, itemAt, same_object.
  destruct (nth_error (contentLayout self) i) as [[w|]|] eqn:E; cbn.
  - rewrite andb_true_iff, negb_true_iff, Nat.eqb_neq. split.
    + intros [Hid Hc]. exists w. auto.
    + intros (w' & Hw & Hid & Hc). injection Hw as <-. auto.
  - split; [discriminate | intros (w' & Hw & _); discriminate].
  - split; [discriminate | intros (w' & Hw & _); discriminate].
Qed.

Lemma accepts_drop_false (self : @MainWindow QRect) (pos : QPoint) (i : nat) :
  accepts_drop contains self pos i = false <-> ~ is_drop_target contains self pos i.
Proof.
  rewrite <- accepts_drop_spec. destruct (accepts_drop contains self pos i); split; congruence.
Qed.

Lemma accepts_drop_in_range (self : @MainWindow QRect) (pos : QPoint) (i : nat) :
  is_drop_target contains self pos i -> (i < List.length (contentLayout self))%nat.
Proof.
  intros (w & Hw & _). apply nth_error_Some. congruence.
Qed.

(** The loop over a range [s, s + n): it stops at the first index that
    passes the test and runs out exactly when none does. *)
Lemma find_insert_loop_seq (self : @MainWindow QRect) (pos : QPoint) (n s : nat) :
  match find_insert_loop contains self pos (seq s n) with
  | Some i =>
      (s <= i < s + n)%nat /\ accepts_drop contains self pos i = true /\
      forall j, (s <= j < i)%nat -> accepts_drop contains self pos j = false
  | None =>
      forall j, (s <= j < s + n)%nat -> accepts_drop contains self pos j = false
  end.
Proof.
  revert s. induction n as [|n IH]; intros s; cbn.
  - intros j Hj. lia.
  - destruct (accepts_drop contains self pos s) eqn:E.
    + repeat split; auto; intros; lia.
    + specialize (IH (S s)).
      destruct (find_insert_loop contains self pos (seq (S s) n)) as [i|].
      * destruct IH as (Hr & Hi & Hb). split; [lia|]. split; [assumption|].
        intros j Hj. destruct (Nat.eq_dec j s) as [-> | Hne]; auto. apply Hb. lia.
      * intros j Hj. destruct (Nat.eq_dec j s) as [-> | Hne]; auto. apply IH. lia.
Qed.

Lemma find_insert_index_target (self : @MainWindow QRect) (pos : QPoint) (i : nat) :
  first_drop_target contains self pos i -> find_insert_index contains self pos = Z.of_nat i.
Proof.
  intros [Ht Hfirst]. unfold find_insert_index.
  pose proof (find_insert_loop_seq self pos (List.length (contentLayout self)) 0) as H.
  pose proof (accepts_drop_in_range _ _ _ Ht) as Hi.
  destruct (find_insert_loop contains self pos (seq 0 (List.length (contentLayout self))))
    as [k|].
  - destruct H as (Hr & Hk & Hb).
    destruct (Nat.lt_trichotomy k i) as [Hlt | [-> | Hgt]]; [|reflexivity|].
    + exfalso. apply (Hfirst k Hlt). now apply accepts_drop_spec.
    + exfalso. apply accepts_drop_spec in Ht. rewrite Hb in Ht by lia. discriminate.
  - exfalso. apply accepts_drop_spec in Ht. rewrite H in Ht by lia. discriminate.
Qed.

Lemma find_insert_index_no_target (self : @MainWindow QRect) (pos : QPoint) :
  (forall i, ~ is_drop_target contains self pos i) ->
  find_insert_index contains self pos = count (contentLayout self) - 1.
Proof.
  intros Hnone. unfold find_insert_index.
  pose proof (find_insert_loop_seq self pos (List.length (contentLayout self)) 0) as H.
  destruct (find_insert_loop contains self pos (seq 0 (List.length (contentLayout self))))
    as [k|]; [|reflexivity].
  destruct H as (_ & Hk & _). exfalso. apply (Hnone k). now apply accepts_drop_spec.
Qed.

(** Either some index is the first drop target or there is none. *)
Lemma first_drop_target_or_none (self : @MainWindow QRect) (pos : QPoint) :
  (exists i, first_drop_target contains self pos i) \/ (forall i, ~ is_drop_target contains self pos i).
Proof.
  pose proof (find_insert_loop_seq self pos (List.length (contentLayout self)) 0) as H.
  destruct (find_insert_loop contains self pos (seq 0 (List.length (contentLayout self))))
    as [k|].
  - left. exists k. destruct H as (Hr & Hk & Hb). split; [now apply accepts_drop_spec|].
    intros j Hj. apply accepts_drop_false. apply Hb. lia.
  - right. intros i Ht. pose proof (accepts_drop_in_range _ _ _ Ht) as Hi.
    apply accepts_drop_spec in Ht. rewrite H in Ht by lia. discriminate.
Qed.

Lemma find_insert_index_range (self : @MainWindow QRect) (pos : QPoint) :
  -1 <= find_insert_index contains self pos <= count (contentLayout self) - 1.
Proof.
  unfold find_insert_index, count.
  pose proof (find_insert_loop_seq self pos (List.length (contentLayout self)) 0) as H.
  destruct (find_insert_loop contains self pos (seq 0 (List.length (contentLayout self))))
    as [k|]; [destruct H as (Hr & _)|]; lia.
Qed.

(** C2. For every drop position, [find_insert_index] returns the layout
    index of the first widget, in increasing index order, that is not
    [add_new_box] and whose geometry contains the position; when there is
    no such widget it returns [count() - 1]; and on a non-empty layout the
    result lies in [[0, count() - 1]]. *)
Theorem find_insert_index_correct (self : @MainWindow QRect) (pos : QPoint) :
  (forall i, first_drop_target contains self pos i ->
             find_insert_index contains self pos = Z.of_nat i) /\
  ((forall i, ~ is_drop_target contains self pos i) ->
   find_insert_index contains self pos = count (contentLayout self) - 1) /\
  ((exists i, first_drop_target contains self pos i) \/ (forall i, ~ is_drop_target contains self pos i)) /\
  (contentLayout self <> [] ->
   0 <= find_insert_index contains self pos <= count (contentLayout self) - 1).
Proof.
  split; [exact (find_insert_index_target self pos)|].
  split; [exact (find_insert_index_no_target self pos)|].
  split; [exact (first_drop_target_or_none self pos)|].
  intros Hne. pose proof (find_insert_index_range self pos) as Hr.
  destruct (first_drop_target_or_none self pos) as [[i Hi] | Hnone].
  - rewrite (find_insert_index_target _ _ _ Hi) in *. lia.
  - rewrite (find_insert_index_no_target _ _ Hnone) in *.
    unfold count. destruct (contentLayout self); [congruence | cbn [List.length]; lia].
Qed.

(** C3. [dropEvent] reorders the pipeline if and only if the drag source
    is a [Toolbox].  For a [Toolbox] source it calls
    [pipeline.move_step(source, index)], takes the widget out of
    [contentLayout] and re-inserts it at that index, accepts the proposed
    action and reruns the pipeline, in this order; for any other source,
    [None] included, the layout and the pipeline stay as they are and
    neither the action is accepted nor the pipeline rerun. *)
Theorem dropEvent_reorders_iff_toolbox (self : @MainWindow QRect)
    (event : @QDropEvent QPoint QRect) :
  let index := find_insert_index contains self (drop_position event) in
  (forall src, drop_source event = Some src -> isinstance_Toolbox src = true ->
     dropEvent contains self event =
       ({| contentLayout :=
             layout_insertWidget (layout_removeWidget (contentLayout self) src) index src;
           add_new_box := add_new_box self |},
        [ pipeline_move_step src index;
          contentLayout_removeWidget src;
          contentLayout_insertWidget index src;
          event_acceptProposedAction;
          pipeline_on_change ])) /\
  ((forall src, drop_source event = Some src -> isinstance_Toolbox src = false) ->
     dropEvent contains self event = (self, []) /\
     forall move_step steps,
       drop contains move_step (self, steps) event = (self, steps)) /\
  (reorders (snd (dropEvent contains self event)) <->
   exists src, drop_source event = Some src /\ isinstance_Toolbox src = true).
Proof.
  cbv zeta. unfold dropEvent, drop, reorders.
  destruct (drop_source event) as [src|] eqn:Esrc.
  - destruct (isinstance_Toolbox src) eqn:Etb.
    + split; [|split].
      * intros src' [= <-] _. reflexivity.
      * intros H. specialize (H src eq_refl). congruence.
      * split; [intros _; exists src; auto|].
        intros _. eexists; eexists. cbn. left. reflexivity.
    + split; [|split].
      * intros src' [= <-] H. congruence.
      * intros _. unfold dropEvent. rewrite Esrc, Etb. cbn. auto.
      * split; [intros (s0 & i0 & [])|]. intros (src' & [= <-] & H). congruence.
  - split; [|split].
    + intros src' [=].
    + intros _. unfold dropEvent. rewrite Esrc. cbn. auto.
    + split; [intros (s0 & i0 & [])|]. intros (src' & [=] & _).
Qed.

End MainWindowFacts.

(** The handlers run on the row of boxes: a drop of toolbox 2 onto toolbox
    1 moves it to the front, and a drag that is not a toolbox does
    nothing. *)
Example find_insert_index_row :
  find_insert_index BoxRow.contains BoxRow.window 150 = 1 /\
  find_insert_index BoxRow.contains BoxRow.window 250 = 2 /\
  find_insert_index BoxRow.contains BoxRow.window 1000 = 2.
Proof. repeat split; reflexivity. Qed.

Example dropEvent_row :
  layout_ids (contentLayout (fst (dropEvent BoxRow.contains BoxRow.window
     {| drop_position := 50; drop_source := Some (BoxRow.toolbox 2) |})))
    = [2; 1; 0]%nat /\
  dropEvent BoxRow.contains BoxRow.window
     {| drop_position := 50; drop_source := Some BoxRow.label |}
    = (BoxRow.window, []).
Proof. split; reflexivity. Qed.

(** C6. A drop that lands outside every toolbox computes the index
    [count() - 1] while the dragged widget is still in the layout; the
    widget is then taken out and re-inserted at that index, which puts it
    behind [add_new_box].  From there layout indices and pipeline indices
    differ, and the one index handed to both no longer means the same
    position: in the run below, whatever [move_step] does with the step
    order, the layout and the pipeline disagree after one of four drops.

    On the row [toolbox 1; toolbox 2; add_new_box]:
    - dropping toolbox 1 at 1000 (no widget there) calls
      [move_step(toolbox 1, 2)] and leaves the layout
      [toolbox 2; add_new_box; toolbox 1];
    - dropping toolbox 2 at 1000 next leaves
      [add_new_box; toolbox 1; toolbox 2];
    - dropping toolbox 2 onto toolbox 1 (at 150) then calls
      [move_step(toolbox 2, 1)] and shows toolbox 2 before toolbox 1,
      while dropping toolbox 2 onto itself in the first row makes the
      same call on the same step order and shows toolbox 1 first. *)
Theorem drop_outside_toolboxes_breaks_order :
  snd (dropEvent BoxRow.contains BoxRow.window
         {| drop_position := 1000; drop_source := Some (BoxRow.toolbox 1) |})
    = [ pipeline_move_step (BoxRow.toolbox 1) 2;
        contentLayout_removeWidget (BoxRow.toolbox 1);
        contentLayout_insertWidget 2 (BoxRow.toolbox 1);
        event_acceptProposedAction;
        pipeline_on_change ] /\
  layout_ids (contentLayout (fst (dropEvent BoxRow.contains BoxRow.window
         {| drop_position := 1000; drop_source := Some (BoxRow.toolbox 1) |})))
    = [2; 0; 1]%nat /\
  ~ (exists steps : list nat,
       footer_last
         (fst (dropEvent BoxRow.contains BoxRow.window
                 {| drop_position := 1000; drop_source := Some (BoxRow.toolbox 1) |}),
          steps)) /\
  ~ (exists move_step : list nat -> nat -> Z -> list nat,
       let start := (BoxRow.window, [1; 2]%nat) in
       let drop1 := BoxRow.drop_at move_step start 1 1000 in
       let drop2 := BoxRow.drop_at move_step drop1 2 1000 in
       let drop3 := BoxRow.drop_at move_step drop2 2 150 in
       let onto_itself := BoxRow.drop_at move_step start 2 150 in
       same_order start /\ same_order drop1 /\ same_order drop2 /\
       same_order drop3 /\ same_order onto_itself).
Proof.
  split; [reflexivity|]. split; [reflexivity|]. split.
  { intros (steps & H). unfold footer_last in H. cbn in H.
    apply (f_equal (@rev nat)) in H. rewrite rev_app_distr in H. discriminate. }
  intros (ms & H0 & H1 & H2 & H3 & Hself).
  unfold same_order in *. vm_compute in H1, H2, H3, Hself.
  rewrite <- H1 in H2, H3. rewrite <- H2 in H3. congruence.
Qed.

(* ===================================================================== *)
(** * 6. Theorems: the interactive canvas                                 *)
(* ===================================================================== *)

Section CanvasFacts.

Context {F : Type} {arith : Arith F}.
Variable transData_inverted_transform : @Axes F -> F * F -> F * F.
Variable QPointF_bool : @QPointF F -> bool.
Local Open Scope py_scope.

(** Lines 368-384 always return, with the locked or the new limits on the
    axes and in [_xlim], [_ylim]. *)
Lemma wheel_apply_spec (self : @InteractiveCanvas F) (ax : @Axes F)
    (xlim0 ylim0 new_xlim new_ylim : F * F) :
  exists self',
    wheel_apply self ax xlim0 ylim0 new_xlim new_ylim = Returned self' /\
    _axes self' =
      Some {| xlim := if lock_x_zoom self then xlim0 else new_xlim;
              ylim := if lock_y_zoom self then ylim0 else new_ylim |} /\
    _xlim self' = Lim (if lock_x_zoom self then xlim0 else new_xlim) /\
    _ylim self' = Lim (if lock_y_zoom self then ylim0 else new_ylim) /\
    is_zoomed self' = true /\
    same_pan_state self' self /\ same_settings self' self.
Proof.
  unfold wheel_apply, configure_imgae_plot, configure_hist_plot,
    same_pan_state, same_settings.
  cbn.
  destruct (plot_type self =? "image")%string;
    [|destruct (plot_type self =? "histogram")%string];
    cbn; destruct (is_zoomed self); cbn;
    eexists; (split; [reflexivity|]); cbn; repeat split.
Qed.

(** [wheelEvent] on a histogram canvas, or on a canvas with recorded
    original limits, returns. *)
Lemma wheelEvent_histogram (self : @InteractiveCanvas F) (event : @QWheelEvent F)
    (ax : @Axes F) :
  _axes self = Some ax ->
  (plot_type self =? "histogram")%string = true ->
  wheelEvent transData_inverted_transform self event =
  wheel_apply self ax (get_xlim ax) (get_ylim ax)
              (wheel_new_xlim transData_inverted_transform ax event) (wheel_new_ylim transData_inverted_transform ax event).
Proof.
  intros Hax Hh. unfold wheelEvent. rewrite Hax, Hh. reflexivity.
Qed.

Lemma wheelEvent_image (self : @InteractiveCanvas F) (event : @QWheelEvent F)
    (ax : @Axes F) (orig_xlim orig_ylim : F * F) :
  _axes self = Some ax ->
  (plot_type self =? "histogram")%string = false ->
  _orig_xlim self = Some orig_xlim ->
  _orig_ylim self = Some orig_ylim ->
  wheelEvent transData_inverted_transform self event =
  wheel_apply self ax (get_xlim ax) (get_ylim ax)
              (clamped_xlim orig_xlim (wheel_new_xlim transData_inverted_transform ax event))
              (clamped_ylim orig_ylim (wheel_new_ylim transData_inverted_transform ax event)).
Proof.
  intros Hax Hh Hox Hoy. unfold wheelEvent. rewrite Hax, Hh, Hox, Hoy. reflexivity.
Qed.

(** A [wheelEvent] that raises leaves the axes as they were. *)
Lemma wheelEvent_raised_axes (self : @InteractiveCanvas F) (event : @QWheelEvent F)
    (e : exn) (self' : @InteractiveCanvas F) :
  wheelEvent transData_inverted_transform self event = Raised e self' ->
  _axes self' = _axes self /\ same_pan_state self' self /\ same_settings self' self.
Proof.
  intros H. unfold same_pan_state, same_settings.
  destruct (_axes self) as [ax|] eqn:Hax;
    [|unfold wheelEvent in H; rewrite Hax in H; discriminate].
  destruct (plot_type self =? "histogram")%string eqn:Hh.
  - rewrite (wheelEvent_histogram self event ax Hax Hh) in H.
    match type of H with
    | wheel_apply ?a ?b ?c ?d ?e ?f = _ =>
        destruct (wheel_apply_spec a b c d e f) as (s & Hs & _)
    end.
    rewrite Hs in H. discriminate.
  - destruct (_orig_xlim self) as [ox|] eqn:Hox; [destruct (_orig_ylim self) as [oy|] eqn:Hoy|].
    + rewrite (wheelEvent_image self event ax ox oy Hax Hh Hox Hoy) in H.
      match type of H with
      | wheel_apply ?a ?b ?c ?d ?e ?f = _ =>
          destruct (wheel_apply_spec a b c d e f) as (s & Hs & _)
      end.
      rewrite Hs in H. discriminate.
    + unfold wheelEvent in H. rewrite Hax, Hh, Hox, Hoy in H. cbn in H.
      injection H as <- <-. cbn. repeat split; assumption.
    + unfold wheelEvent in H. rewrite Hax, Hh, Hox in H. cbn in H.
      injection H as <- <-. cbn. repeat split; assumption.
Qed.

(** ** mouseMoveEvent, case by case *)

Lemma pan_active_start (self : @InteractiveCanvas F) :
  pan_active QPointF_bool self = true ->
  _is_panning self = true /\
  exists start, _pan_start self = Some start /\ QPointF_bool start = true.
Proof.
  unfold pan_active. intros H. apply andb_true_iff in H as [Hp Hs].
  split; [assumption|]. destruct (_pan_start self) as [p|]; [eauto | discriminate].
Qed.

Lemma mouseMoveEvent_inactive (self : @InteractiveCanvas F) (event : @QMouseEvent F) :
  pan_active QPointF_bool self = false ->
  mouseMoveEvent QPointF_bool self event = Returned self.
Proof. intros H. unfold mouseMoveEvent. rewrite H. reflexivity. Qed.

Lemma pan_set_xlim_recorded (self : @InteractiveCanvas F) (ax : @Axes F)
    (orig_xlim new_xlim : F * F) :
  _orig_xlim self = Some orig_xlim ->
  pan_set_xlim self ax new_xlim =
  Some (if pan_x_guard orig_xlim new_xlim then set_xlim ax new_xlim else ax).
Proof.
  intros Ho. unfold pan_set_xlim, pan_x_guard. rewrite Ho.
  destruct (fst new_xlim <? of_int 0); cbn; [reflexivity|].
  destruct (snd new_xlim >? snd orig_xlim); reflexivity.
Qed.

Lemma pan_set_ylim_recorded (self : @InteractiveCanvas F) (ax : @Axes F)
    (orig_ylim new_ylim : F * F) :
  _orig_ylim self = Some orig_ylim ->
  pan_set_ylim self ax new_ylim =
  Some (if pan_y_guard orig_ylim new_ylim then set_ylim ax new_ylim else ax).
Proof.
  intros Ho. unfold pan_set_ylim, pan_y_guard. rewrite Ho.
  destruct (snd new_ylim <? of_int 0); cbn; [reflexivity|].
  destruct (fst new_ylim >? fst orig_ylim); reflexivity.
Qed.

(** An active pan on a histogram canvas of non-zero size. *)
Lemma mouseMoveEvent_histogram (self : @InteractiveCanvas F) (event : @QMouseEvent F)
    (ax : @Axes F) (start : @QPointF F) :
  pan_active QPointF_bool self = true ->
  _pan_start self = Some start ->
  _axes self = Some ax ->
  width self <> 0%Z -> height self <> 0%Z ->
  (plot_type self =? "histogram")%string = true ->
  exists self',
    mouseMoveEvent QPointF_bool self event = Returned self' /\
    _axes self' =
      Some {| xlim := pan_xlim (get_xlim ax) (pan_dx_data self ax start event);
              ylim := pan_ylim (get_ylim ax) (pan_dy_data self ax start event) |} /\
    _pan_start self' = Some (position event) /\
    _is_panning self' = _is_panning self /\
    _orig_xlim self' = _orig_xlim self /\ _orig_ylim self' = _orig_ylim self /\
    same_settings self' self.
Proof.
  intros Hact Hst Hax Hw Hh Hp. unfold mouseMoveEvent, same_settings.
  rewrite Hact, Hst, Hax, Hp.
  apply Z.eqb_neq in Hw, Hh. rewrite Hw, Hh.
  eexists. split; [reflexivity|]. cbn. repeat split.
Qed.

(** An active pan on any other canvas of non-zero size with recorded
    original limits: each axis gets the shifted limits exactly when its
    guard lets them through. *)
Lemma mouseMoveEvent_image (self : @InteractiveCanvas F) (event : @QMouseEvent F)
    (ax : @Axes F) (start : @QPointF F) (orig_xlim orig_ylim : F * F) :
  pan_active QPointF_bool self = true ->
  _pan_start self = Some start ->
  _axes self = Some ax ->
  width self <> 0%Z -> height self <> 0%Z ->
  (plot_type self =? "histogram")%string = false ->
  _orig_xlim self = Some orig_xlim ->
  _orig_ylim self = Some orig_ylim ->
  let new_xlim := pan_xlim (get_xlim ax) (pan_dx_data self ax start event) in
  let new_ylim := pan_ylim (get_ylim ax) (pan_dy_data self ax start event) in
  exists self',
    mouseMoveEvent QPointF_bool self event = Returned self' /\
    _axes self' =
      Some {| xlim := if pan_x_guard orig_xlim new_xlim then new_xlim else get_xlim ax;
              ylim := if pan_y_guard orig_ylim new_ylim then new_ylim else get_ylim ax |} /\
    _pan_start self' = Some (position event) /\
    _is_panning self' = _is_panning self /\
    _orig_xlim self' = _orig_xlim self /\ _orig_ylim self' = _orig_ylim self /\
    same_settings self' self.
Proof.
  intros Hact Hst Hax Hw Hh Hp Hox Hoy. cbv zeta.
  unfold mouseMoveEvent, same_settings.
  rewrite Hact, Hst, Hax, Hp.
  apply Z.eqb_neq in Hw, Hh. rewrite Hw, Hh.
  cbv zeta.
  rewrite (pan_set_xlim_recorded _ _ orig_xlim) by (cbn; assumption).
  rewrite (pan_set_ylim_recorded _ _ orig_ylim) by (cbn; assumption).
  eexists. split; [reflexivity|]. cbn.
  split; [|repeat split; assumption].
  unfold pan_dx_data, pan_dy_data.
  destruct (pan_x_guard _ _), (pan_y_guard _ _); destruct ax; reflexivity.
Qed.

(** Whatever way [mouseMoveEvent] ends, each axis keeps its limits or gets
    them shifted by the data offset of that axis; nothing else of the
    canvas that the other handlers read changes, but [_xlim], [_ylim],
    [_pan_start] and [is_zoomed]. *)
Lemma mouseMoveEvent_limits (self : @InteractiveCanvas F) (event : @QMouseEvent F) :
  let self' := state_of (mouseMoveEvent QPointF_bool self event) in
  match _axes self with
  | None => _axes self' = None
  | Some ax =>
      exists ax', _axes self' = Some ax' /\
        (get_xlim ax' = get_xlim ax \/
         exists start, pan_active QPointF_bool self = true /\
                       _pan_start self = Some start /\
                       get_xlim ax' = pan_xlim (get_xlim ax) (pan_dx_data self ax start event)) /\
        (get_ylim ax' = get_ylim ax \/
         exists start, pan_active QPointF_bool self = true /\
                       _pan_start self = Some start /\
                       get_ylim ax' = pan_ylim (get_ylim ax) (pan_dy_data self ax start event))
  end /\
  _is_panning self' = _is_panning self /\
  (_pan_start self' = _pan_start self \/ _pan_start self' = Some (position event)) /\
  _orig_xlim self' = _orig_xlim self /\ _orig_ylim self' = _orig_ylim self /\
  same_settings self' self.
Proof.
  cbv zeta. unfold same_settings.
  destruct (_axes self) as [ax|] eqn:Hax.
  - assert (Hkeep :
      (exists ax', Some ax = Some ax' /\
        (get_xlim ax' = get_xlim ax \/
         exists start, pan_active QPointF_bool self = true /\
                       _pan_start self = Some start /\
                       get_xlim ax' = pan_xlim (get_xlim ax) (pan_dx_data self ax start event)) /\
        (get_ylim ax' = get_ylim ax \/
         exists start, pan_active QPointF_bool self = true /\
                       _pan_start self = Some start /\
                       get_ylim ax' = pan_ylim (get_ylim ax) (pan_dy_data self ax start event))))
      by (exists ax; auto).
    unfold mouseMoveEvent.
    destruct (pan_active QPointF_bool self) eqn:Hact;
      [|cbn; rewrite Hax; repeat split; auto].
    destruct (_pan_start self) as [start|] eqn:Hst;
      [|cbn; rewrite Hax; repeat split; auto].
    destruct (width self =? 0)%Z;
      [cbn; rewrite Hax; repeat split; auto|].
    rewrite Hax.
    destruct (height self =? 0)%Z;
      [cbn; rewrite Hax; repeat split; auto|].
    cbv zeta.
    destruct (plot_type self =? "histogram")%string.
    { cbn. repeat split; auto. eexists. split; [reflexivity|]. cbn.
      split; right; exists start; auto. }
    unfold pan_set_xlim, pan_set_ylim. cbn.
    repeat match goal with
           | |- context [if ?b then _ else _] => destruct b
           | |- context [match _orig_xlim self with _ => _ end] =>
               destruct (_orig_xlim self) eqn:?
           | |- context [match _orig_ylim self with _ => _ end] =>
               destruct (_orig_ylim self) eqn:?
           end;
      cbn; rewrite ?Hax; repeat split;
      first [ assumption | reflexivity | (left; assumption) | (right; reflexivity)
            | (eexists; split; [reflexivity|]; cbn; split;
               first [left; reflexivity | right; exists start; auto]) ].
  - unfold mouseMoveEvent. rewrite Hax.
    destruct (pan_active QPointF_bool self); [|cbn; rewrite Hax; repeat split; auto].
    destruct (_pan_start self) eqn:Hst; [|cbn; rewrite Hax; repeat split; auto].
    destruct (width self =? 0)%Z; cbn; rewrite Hax; repeat split; auto.
Qed.

(** ** What [wheelEvent] leaves alone *)

Lemma wheelEvent_frame (self : @InteractiveCanvas F) (event : @QWheelEvent F) :
  same_pan_state (state_of (wheelEvent transData_inverted_transform self event)) self /\
  same_settings (state_of (wheelEvent transData_inverted_transform self event)) self.
Proof.
  destruct (wheelEvent transData_inverted_transform self event) as [s|e s] eqn:E; cbn.
  - destruct (_axes self) as [ax|] eqn:Hax.
    + destruct (plot_type self =? "histogram")%string eqn:Hh.
      * rewrite (wheelEvent_histogram self event ax Hax Hh) in E.
        match type of E with
        | wheel_apply ?a ?b ?c ?d ?e ?f = _ =>
            destruct (wheel_apply_spec a b c d e f) as (s' & Hs & _ & _ & _ & _ & Hp & Hset)
        end.
        rewrite Hs in E. injection E as <-. auto.
      * destruct (_orig_xlim self) as [ox|] eqn:Hox;
          [destruct (_orig_ylim self) as [oy|] eqn:Hoy|].
        -- rewrite (wheelEvent_image self event ax ox oy Hax Hh Hox Hoy) in E.
           match type of E with
           | wheel_apply ?a ?b ?c ?d ?e ?f = _ =>
               destruct (wheel_apply_spec a b c d e f)
                 as (s' & Hs & _ & _ & _ & _ & Hp & Hset)
           end.
           rewrite Hs in E. injection E as <-. auto.
        -- unfold wheelEvent in E. rewrite Hax, Hh, Hox, Hoy in E. discriminate.
        -- unfold wheelEvent in E. rewrite Hax, Hh, Hox in E. discriminate.
    + unfold wheelEvent in E. rewrite Hax in E. injection E as <-.
      unfold same_pan_state, same_settings. repeat split.
  - destruct (wheelEvent_raised_axes self event e s E) as (_ & Hp & Hset). auto.
Qed.

(** Every handler but the mouse handlers leaves [_is_panning] and
    [_pan_start] as they are. *)
Lemma handle_pan_state (self : @InteractiveCanvas F) (ev : @event F) :
  let self' := state_of (handle transData_inverted_transform QPointF_bool self ev) in
  match ev with
  | MousePress e =>
      if is_LeftButton (button e)
      then _is_panning self' = true /\ _pan_start self' = Some (position e)
      else same_pan_state self' self
  | MouseRelease e =>
      if is_LeftButton (button e)
      then _is_panning self' = false /\ _pan_start self' = None
      else same_pan_state self' self
  | MouseMove e =>
      _is_panning self' = _is_panning self /\
      (_pan_start self' = _pan_start self \/ _pan_start self' = Some (position e))
  | _ => same_pan_state self' self
  end.
Proof.
  cbv zeta. unfold same_pan_state.
  destruct ev as [e|e|e|e| | | |t| |c|c|w h]; cbn [handle].
  - apply (wheelEvent_frame self e).
  - unfold mousePressEvent. destruct (is_LeftButton (button e)); cbn; auto.
  - destruct (mouseMoveEvent_limits self e) as (_ & Hp & Hs & _). auto.
  - unfold mouseReleaseEvent. destruct (is_LeftButton (button e)); cbn; auto.
  - unfold configure_imgae_plot. destruct (_axes self); cbn; auto.
    destruct (is_zoomed self); cbn; auto.
  - unfold configure_hist_plot. destruct (_axes self); cbn; auto.
  - unfold reset_plot. destruct (_axes self); cbn; auto.
  - unfold set_plot_type. destruct (_axes self); cbn; auto.
  - unfold reset_zoom, reset_plot. destruct (_axes self); cbn; auto.
  - cbn. auto.
  - cbn. auto.
  - cbn. auto.
Qed.

(** [_is_panning] follows the left button through any run. *)
Lemma run_is_panning (evs : list (@event F)) (self : @InteractiveCanvas F) :
  _is_panning (run transData_inverted_transform QPointF_bool self evs) =
  left_button_down evs (_is_panning self).
Proof.
  revert self. induction evs as [|ev evs IH]; intros self; [reflexivity|].
  cbn [run]. rewrite IH.
  pose proof (handle_pan_state self ev) as H. cbv zeta in H.
  destruct ev; cbn [left_button_down];
    try (destruct H as [-> _]; reflexivity).
  - destruct (is_LeftButton (button e)); destruct H as [-> _]; reflexivity.
  - destruct (is_LeftButton (button e)); destruct H as [-> _]; reflexivity.
Qed.

Lemma handle_pan_invariant (self : @InteractiveCanvas F) (ev : @event F) :
  pan_invariant self ->
  pan_invariant (state_of (handle transData_inverted_transform QPointF_bool self ev)).
Proof.
  unfold pan_invariant. intros Hinv.
  pose proof (handle_pan_state self ev) as H. cbv zeta in H.
  destruct ev;
    try (destruct H as [Hp Hs]; rewrite Hp, Hs; exact Hinv).
  - destruct (is_LeftButton (button e)); destruct H as [Hp Hs]; rewrite Hp, Hs;
      [discriminate | exact Hinv].
  - destruct H as [Hp [Hs | Hs]]; rewrite Hp, Hs; [exact Hinv | discriminate].
  - destruct (is_LeftButton (button e)); destruct H as [Hp Hs]; rewrite Hp, Hs;
      [discriminate | exact Hinv].
Qed.

Lemma run_pan_invariant (evs : list (@event F)) (self : @InteractiveCanvas F) :
  pan_invariant self ->
  pan_invariant (run transData_inverted_transform QPointF_bool self evs).
Proof.
  revert self. induction evs as [|ev evs IH]; intros self Hinv; [exact Hinv|].
  cbn [run]. apply IH. now apply handle_pan_invariant.
Qed.

(** C10. On every canvas reachable from [__init__], [_is_panning] implies
    that [_pan_start] is not [None].  A left-button press sets both, a
    left-button release clears both, and no other event changes
    [_is_panning], so that [_is_panning] says whether the history ends
    between a left-button press and the next left-button release; a
    [mouseMoveEvent] outside such a window changes nothing, the axis
    limits included. *)
Theorem panning_window_invariant (w h : Z) (evs : list (@event F)) :
  let self := run transData_inverted_transform QPointF_bool (__init__ w h) evs in
  (_is_panning self = true -> _pan_start self <> None) /\
  (forall e, is_LeftButton (button e) = true ->
     _is_panning (state_of (mousePressEvent self e)) = true /\
     _pan_start (state_of (mousePressEvent self e)) = Some (position e)) /\
  (forall e, is_LeftButton (button e) = true ->
     _is_panning (state_of (mouseReleaseEvent self e)) = false /\
     _pan_start (state_of (mouseReleaseEvent self e)) = None) /\
  (forall ev,
     (forall e, ev = MousePress e -> is_LeftButton (button e) = false) ->
     (forall e, ev = MouseRelease e -> is_LeftButton (button e) = false) ->
     _is_panning (state_of (handle transData_inverted_transform QPointF_bool self ev))
     = _is_panning self) /\
  _is_panning self = left_button_down evs false /\
  (forall e, left_button_down evs false = false ->
     mouseMoveEvent QPointF_bool self e = Returned self).
Proof.
  cbv zeta.
  set (self := run transData_inverted_transform QPointF_bool (__init__ w h) evs).
  assert (Hdown : _is_panning self = left_button_down evs false)
    by (unfold self; now rewrite run_is_panning).
  split; [|split; [|split; [|split; [|split]]]].
  - apply run_pan_invariant. unfold pan_invariant. cbn. discriminate.
  - intros e He. unfold mousePressEvent. rewrite He. cbn. auto.
  - intros e He. unfold mouseReleaseEvent. rewrite He. cbn. auto.
  - intros ev Hpress Hrelease.
    pose proof (handle_pan_state self ev) as H. cbv zeta in H.
    destruct ev; try (destruct H as [-> _]; reflexivity).
    + rewrite (Hpress e eq_refl) in H. destruct H as [-> _]. reflexivity.
    + rewrite (Hrelease e eq_refl) in H. destruct H as [-> _]. reflexivity.
  - exact Hdown.
  - intros e Hout. apply mouseMoveEvent_inactive.
    unfold pan_active. rewrite Hdown, Hout. reflexivity.
Qed.

(** ** Histogram canvases *)

(** C7. On a canvas whose [plot_type] is ["histogram"] the computed limits
    reach the axes as computed, with no clamp against 0 or the recorded
    original limits (which need not even be recorded): [wheelEvent] sets
    the candidate limits, each axis subject only to its zoom lock, and an
    active [mouseMoveEvent] sets the shifted limits of both axes. *)
Theorem histogram_limits_not_clamped (self : @InteractiveCanvas F) (ax : @Axes F) :
  _axes self = Some ax ->
  (plot_type self =? "histogram")%string = true ->
  (forall event : @QWheelEvent F,
     exists self',
       wheelEvent transData_inverted_transform self event = Returned self' /\
       _axes self' =
         Some {| xlim := if lock_x_zoom self then get_xlim ax
                         else wheel_new_xlim transData_inverted_transform ax event;
                 ylim := if lock_y_zoom self then get_ylim ax
                         else wheel_new_ylim transData_inverted_transform ax event |}) /\
  (forall (event : @QMouseEvent F) (start : @QPointF F),
     pan_active QPointF_bool self = true ->
     _pan_start self = Some start ->
     width self <> 0%Z -> height self <> 0%Z ->
     exists self',
       mouseMoveEvent QPointF_bool self event = Returned self' /\
       _axes self' =
         Some {| xlim := pan_xlim (get_xlim ax) (pan_dx_data self ax start event);
                 ylim := pan_ylim (get_ylim ax) (pan_dy_data self ax start event) |}).
Proof.
  intros Hax Hh. split.
  - intros event. rewrite (wheelEvent_histogram self event ax Hax Hh).
    destruct (wheel_apply_spec self ax (get_xlim ax) (get_ylim ax)
                (wheel_new_xlim transData_inverted_transform ax event) (wheel_new_ylim transData_inverted_transform ax event))
      as (self' & Hret & Haxes & _).
    exists self'. auto.
  - intros event start Hact Hst Hw Hht.
    destruct (mouseMoveEvent_histogram self event ax start Hact Hst Hax Hw Hht Hh)
      as (self' & Hret & Haxes & _).
    exists self'. auto.
Qed.

(** ** Zoom locks *)

Lemma Axes_eta (ax : @Axes F) : {| xlim := get_xlim ax; ylim := get_ylim ax |} = ax.
Proof. destruct ax. reflexivity. Qed.

(** The x limits after [wheelEvent] when the x zoom is locked, however the
    handler ends. *)
Lemma wheelEvent_lock_x (self : @InteractiveCanvas F) (event : @QWheelEvent F) :
  lock_x_zoom self = true ->
  axes_xlim (state_of (wheelEvent transData_inverted_transform self event))
  = axes_xlim self.
Proof.
  intros Hlock. unfold axes_xlim.
  destruct (wheelEvent transData_inverted_transform self event) as [s|e s] eqn:E; cbn.
  - destruct (_axes self) as [ax|] eqn:Hax.
    + destruct (plot_type self =? "histogram")%string eqn:Hh.
      * rewrite (wheelEvent_histogram self event ax Hax Hh) in E.
        match type of E with
        | wheel_apply ?a ?b ?c ?d ?e ?f = _ =>
            destruct (wheel_apply_spec a b c d e f) as (s' & Hs & Haxes & _)
        end.
        rewrite Hs in E. injection E as <-. rewrite Haxes, Hlock. reflexivity.
      * destruct (_orig_xlim self) as [ox|] eqn:Hox;
          [destruct (_orig_ylim self) as [oy|] eqn:Hoy|].
        -- rewrite (wheelEvent_image self event ax ox oy Hax Hh Hox Hoy) in E.
           match type of E with
           | wheel_apply ?a ?b ?c ?d ?e ?f = _ =>
               destruct (wheel_apply_spec a b c d e f) as (s' & Hs & Haxes & _)
           end.
           rewrite Hs in E. injection E as <-. rewrite Haxes, Hlock. reflexivity.
        -- unfold wheelEvent in E. rewrite Hax, Hh, Hox, Hoy in E. discriminate.
        -- unfold wheelEvent in E. rewrite Hax, Hh, Hox in E. discriminate.
    + unfold wheelEvent in E. rewrite Hax in E. injection E as <-. now rewrite Hax.
  - destruct (wheelEvent_raised_axes self event e s E) as (-> & _). reflexivity.
Qed.

Lemma wheelEvent_lock_y (self : @InteractiveCanvas F) (event : @QWheelEvent F) :
  lock_y_zoom self = true ->
  axes_ylim (state_of (wheelEvent transData_inverted_transform self event))
  = axes_ylim self.
Proof.
  intros Hlock. unfold axes_ylim.
  destruct (wheelEvent transData_inverted_transform self event) as [s|e s] eqn:E; cbn.
  - destruct (_axes self) as [ax|] eqn:Hax.
    + destruct (plot_type self =? "histogram")%string eqn:Hh.
      * rewrite (wheelEvent_histogram self event ax Hax Hh) in E.
        match type of E with
        | wheel_apply ?a ?b ?c ?d ?e ?f = _ =>
            destruct (wheel_apply_spec a b c d e f) as (s' & Hs & Haxes & _)
        end.
        rewrite Hs in E. injection E as <-. rewrite Haxes, Hlock. reflexivity.
      * destruct (_orig_xlim self) as [ox|] eqn:Hox;
          [destruct (_orig_ylim self) as [oy|] eqn:Hoy|].
        -- rewrite (wheelEvent_image self event ax ox oy Hax Hh Hox Hoy) in E.
           match type of E with
           | wheel_apply ?a ?b ?c ?d ?e ?f = _ =>
               destruct (wheel_apply_spec a b c d e f) as (s' & Hs & Haxes & _)
           end.
           rewrite Hs in E. injection E as <-. rewrite Haxes, Hlock. reflexivity.
        -- unfold wheelEvent in E. rewrite Hax, Hh, Hox, Hoy in E. discriminate.
        -- unfold wheelEvent in E. rewrite Hax, Hh, Hox in E. discriminate.
    + unfold wheelEvent in E. rewrite Hax in E. injection E as <-. now rewrite Hax.
  - destruct (wheelEvent_raised_axes self event e s E) as (-> & _). reflexivity.
Qed.

(** When the handler reaches the zoom locks (a histogram canvas, or
    recorded original limits), it returns with these limits on the axes. *)
Lemma wheelEvent_returns (self : @InteractiveCanvas F) (event : @QWheelEvent F)
    (ax : @Axes F) (orig_xlim orig_ylim : F * F) :
  _axes self = Some ax ->
  ((plot_type self =? "histogram")%string = true \/
   (_orig_xlim self = Some orig_xlim /\ _orig_ylim self = Some orig_ylim)) ->
  exists self',
    wheelEvent transData_inverted_transform self event = Returned self' /\
    _axes self' =
      Some {| xlim := if lock_x_zoom self then get_xlim ax
                      else wheel_zoomed_xlim transData_inverted_transform self ax event orig_xlim;
              ylim := if lock_y_zoom self then get_ylim ax
                      else wheel_zoomed_ylim transData_inverted_transform self ax event orig_ylim |}.
Proof.
  intros Hax Hcase. unfold wheel_zoomed_xlim, wheel_zoomed_ylim.
  destruct (plot_type self =? "histogram")%string eqn:Hh.
  - rewrite (wheelEvent_histogram self event ax Hax Hh).
    destruct (wheel_apply_spec self ax (get_xlim ax) (get_ylim ax)
                (wheel_new_xlim transData_inverted_transform ax event) (wheel_new_ylim transData_inverted_transform ax event))
      as (self' & Hret & Haxes & _).
    exists self'. auto.
  - destruct Hcase as [Hc | [Hox Hoy]]; [discriminate|].
    rewrite (wheelEvent_image self event ax orig_xlim orig_ylim Hax Hh Hox Hoy).
    destruct (wheel_apply_spec self ax (get_xlim ax) (get_ylim ax)
                (clamped_xlim orig_xlim (wheel_new_xlim transData_inverted_transform ax event))
                (clamped_ylim orig_ylim (wheel_new_ylim transData_inverted_transform ax event)))
      as (self' & Hret & Haxes & _).
    exists self'. auto.
Qed.

(** C9. With [lock_x_zoom] set, [wheelEvent] leaves the x limits of the
    axes as they were and still applies the zoom it computed on y (when it
    gets that far: on a histogram canvas or with recorded original
    limits); symmetrically for [lock_y_zoom]; with both set the axes keep
    both limits. *)
Theorem wheelEvent_zoom_locks (self : @InteractiveCanvas F) (event : @QWheelEvent F) :
  let after := state_of (wheelEvent transData_inverted_transform self event) in
  (lock_x_zoom self = true -> axes_xlim after = axes_xlim self) /\
  (lock_y_zoom self = true -> axes_ylim after = axes_ylim self) /\
  (lock_x_zoom self = true -> lock_y_zoom self = true -> _axes after = _axes self) /\
  (forall ax orig_xlim orig_ylim,
     _axes self = Some ax ->
     ((plot_type self =? "histogram")%string = true \/
      (_orig_xlim self = Some orig_xlim /\ _orig_ylim self = Some orig_ylim)) ->
     (lock_x_zoom self = true -> lock_y_zoom self = false ->
      _axes after = Some {| xlim := get_xlim ax;
                            ylim := wheel_zoomed_ylim transData_inverted_transform self ax event orig_ylim |}) /\
     (lock_y_zoom self = true -> lock_x_zoom self = false ->
      _axes after = Some {| xlim := wheel_zoomed_xlim transData_inverted_transform self ax event orig_xlim;
                            ylim := get_ylim ax |})).
Proof.
  cbv zeta.
  split; [exact (wheelEvent_lock_x self event)|].
  split; [exact (wheelEvent_lock_y self event)|].
  split.
  - intros Hx Hy.
    pose proof (wheelEvent_lock_x self event Hx) as Hxl.
    pose proof (wheelEvent_lock_y self event Hy) as Hyl.
    unfold axes_xlim, axes_ylim in *.
    destruct (_axes (state_of (wheelEvent transData_inverted_transform self event)))
      as [a'|], (_axes self) as [a|]; cbn in *; try discriminate; [|reflexivity].
    injection Hxl as Hxl. injection Hyl as Hyl.
    destruct a', a. cbn in *. congruence.
  - intros ax ox oy Hax Hcase.
    destruct (wheelEvent_returns self event ax ox oy Hax Hcase) as (self' & Hret & Haxes).
    rewrite Hret. cbn. rewrite Haxes.
    split; intros -> ->; reflexivity.
Qed.

(** ** Limits that pass the guards *)

(** On every carrier, a [mouseMoveEvent] on a canvas that is not a
    histogram keeps limits that pass the guards passing them. *)
Lemma mouseMoveEvent_passes_guards (self : @InteractiveCanvas F)
    (event : @QMouseEvent F) :
  (plot_type self =? "histogram")%string = false ->
  passes_guards self ->
  passes_guards (state_of (mouseMoveEvent QPointF_bool self event)).
Proof.
  intros Hh (ax & ox & oy & Hax & Hox & Hoy & Hx & Hy).
  destruct (pan_active QPointF_bool self) eqn:Hact.
  2: { rewrite (mouseMoveEvent_inactive self event Hact). cbn.
       exists ax, ox, oy. auto. }
  destruct (pan_active_start self Hact) as (_ & start & Hst & _).
  destruct (Z.eq_dec (width self) 0) as [Hw | Hw].
  { unfold mouseMoveEvent. rewrite Hact, Hst. apply Z.eqb_eq in Hw. rewrite Hw. cbn.
    exists ax, ox, oy. auto. }
  destruct (Z.eq_dec (height self) 0) as [Hht | Hht].
  { unfold mouseMoveEvent. rewrite Hact, Hst, Hax.
    apply Z.eqb_neq in Hw. apply Z.eqb_eq in Hht. rewrite Hw, Hht. cbn.
    exists ax, ox, oy. auto. }
  destruct (mouseMoveEvent_image self event ax start ox oy Hact Hst Hax Hw Hht Hh Hox Hoy)
    as (self' & Hret & Haxes & _ & _ & Hox' & Hoy' & _).
  rewrite Hret. cbn.
  eexists; exists ox, oy.
  split; [exact Haxes|]. split; [congruence|]. split; [congruence|].
  cbn.
  destruct (pan_x_guard ox (pan_xlim (get_xlim ax) (pan_dx_data self ax start event))) eqn:E1,
    (pan_y_guard oy (pan_ylim (get_ylim ax) (pan_dy_data self ax start event))) eqn:E2;
    auto.
Qed.

Lemma run_moves_passes_guards (moves : list (@QMouseEvent F))
    (self : @InteractiveCanvas F) :
  (plot_type self =? "histogram")%string = false ->
  passes_guards self ->
  passes_guards
    (run transData_inverted_transform QPointF_bool self (map MouseMove moves)).
Proof.
  revert self. induction moves as [|e moves IH]; intros self Hh Hin; [exact Hin|].
  cbn [map run handle]. apply IH.
  - destruct (mouseMoveEvent_limits self e) as (_ & _ & _ & _ & _ & _ & _ & Hp & _).
    cbv zeta in Hp. rewrite Hp. exact Hh.
  - now apply mouseMoveEvent_passes_guards.
Qed.

(** ** The clamp of [wheelEvent] *)

Section Clamp.

Context {laws : OrderLaws F}.

Lemma py_max_zero_le (v : F) : (of_int 0 <=? py_max (of_int 0) v) = true.
Proof.
  unfold py_max. destruct (v >? of_int 0) eqn:E.
  - now apply flt_fle.
  - apply fle_zero.
Qed.

Lemma py_min_le (bound v : F) :
  (bound <=? bound) = true -> (py_min bound v <=? bound) = true.
Proof.
  intros Hb. unfold py_min. destruct (v <? bound) eqn:E.
  - now apply flt_fle.
  - exact Hb.
Qed.

(** C1. A wheel event on a canvas that is not a histogram, with both zoom
    locks off and original limits recorded (as numbers: a limit read from
    the axes is never NaN), returns with the clamped candidate limits on
    the axes: the x limits satisfy [xlim[0] >= 0] and
    [xlim[1] <= _orig_xlim[1]], the (inverted) y limits [ylim[1] >= 0]
    and [ylim[0] <= _orig_ylim[0]]. *)
Theorem wheelEvent_clamps_to_bounds (self : @InteractiveCanvas F)
    (event : @QWheelEvent F) (ax : @Axes F) (orig_xlim orig_ylim : F * F) :
  _axes self = Some ax ->
  (plot_type self =? "histogram")%string = false ->
  lock_x_zoom self = false ->
  lock_y_zoom self = false ->
  _orig_xlim self = Some orig_xlim ->
  _orig_ylim self = Some orig_ylim ->
  (snd orig_xlim <=? snd orig_xlim) = true ->
  (fst orig_ylim <=? fst orig_ylim) = true ->
  exists self' new_xlim new_ylim,
    wheelEvent transData_inverted_transform self event = Returned self' /\
    _axes self' = Some {| xlim := new_xlim; ylim := new_ylim |} /\
    new_xlim = clamped_xlim orig_xlim (wheel_new_xlim transData_inverted_transform ax event) /\
    new_ylim = clamped_ylim orig_ylim (wheel_new_ylim transData_inverted_transform ax event) /\
    (fst new_xlim >=? of_int 0) = true /\
    (snd new_xlim <=? snd orig_xlim) = true /\
    (snd new_ylim >=? of_int 0) = true /\
    (fst new_ylim <=? fst orig_ylim) = true.
Proof.
  intros Hax Hh Hlx Hly Hox Hoy Hnx Hny.
  destruct (wheelEvent_returns self event ax orig_xlim orig_ylim Hax
              (or_intror (conj Hox Hoy))) as (self' & Hret & Haxes).
  unfold wheel_zoomed_xlim, wheel_zoomed_ylim in Haxes.
  rewrite Hlx, Hly, Hh in Haxes.
  exists self', (clamped_xlim orig_xlim (wheel_new_xlim transData_inverted_transform ax event)),
    (clamped_ylim orig_ylim (wheel_new_ylim transData_inverted_transform ax event)).
  repeat split; try assumption; cbn.
  - apply py_max_zero_le.
  - now apply py_min_le.
  - apply py_max_zero_le.
  - now apply py_min_le.
Qed.

End Clamp.

(** ** The guards of [mouseMoveEvent] *)

Section PanBounds.

Context {laws : OrderLaws F}.

Lemma compares_fle_refl (v : F) : compares v v -> (v <=? v) = true.
Proof.
  unfold compares. intros H. destruct (v <=? v) eqn:E; [reflexivity|].
  cbn in H. apply flt_fle in H. congruence.
Qed.

(** On values that compare, the guards as written are the two
    inequalities. *)
Lemma pan_x_guard_spec (orig_xlim new_xlim : F * F) :
  compares (fst new_xlim) (of_int 0) -> compares (snd orig_xlim) (snd new_xlim) ->
  pan_x_guard orig_xlim new_xlim =
  (fst new_xlim >=? of_int 0) && (snd new_xlim <=? snd orig_xlim).
Proof.
  unfold pan_x_guard, compares. intros -> ->.
  destruct (fst new_xlim >=? of_int 0), (snd new_xlim <=? snd orig_xlim); reflexivity.
Qed.

Lemma pan_y_guard_spec (orig_ylim new_ylim : F * F) :
  compares (snd new_ylim) (of_int 0) -> compares (fst orig_ylim) (fst new_ylim) ->
  pan_y_guard orig_ylim new_ylim =
  (snd new_ylim >=? of_int 0) && (fst new_ylim <=? fst orig_ylim).
Proof.
  unfold pan_y_guard, compares. intros -> ->.
  destruct (snd new_ylim >=? of_int 0), (fst new_ylim <=? fst orig_ylim); reflexivity.
Qed.

Lemma within_bounds_not_outside (self : @InteractiveCanvas F) :
  within_bounds self -> not_outside self.
Proof.
  intros (ax & ox & oy & Hax & Hox & Hoy & Hx0 & Hx1 & Hy1 & Hy0).
  exists ax, ox, oy. auto 10.
Qed.

Lemma not_outside_within_bounds (self : @InteractiveCanvas F) :
  not_outside self -> limits_compare self -> within_bounds self.
Proof.
  intros (ax & ox & oy & Hax & Hox & Hoy & Hx0 & Hx1 & Hy1 & Hy0)
         (ax' & ox' & oy' & Hax' & Hox' & Hoy' & Cx0 & Cx1 & Cy1 & Cy0).
  assert (ax' = ax) by congruence. assert (ox' = ox) by congruence.
  assert (oy' = oy) by congruence. subst ax' ox' oy'.
  exists ax, ox, oy.
  split; [exact Hax|]. split; [exact Hox|]. split; [exact Hoy|].
  unfold compares in Cx0, Cx1, Cy1, Cy0.
  split; [|split; [|split]].
  - destruct Hx0 as [H | H]; [exact H|].
    rewrite H in Cx0. symmetry in Cx0. now apply negb_false_iff in Cx0.
  - destruct Hx1 as [H | [H | H]]; [exact H| |].
    + rewrite H in Cx1. symmetry in Cx1. now apply negb_false_iff in Cx1.
    + rewrite H. apply compares_fle_refl. unfold compares. now rewrite H in Cx1.
  - destruct Hy1 as [H | H]; [exact H|].
    rewrite H in Cy1. symmetry in Cy1. now apply negb_false_iff in Cy1.
  - destruct Hy0 as [H | [H | H]]; [exact H| |].
    + rewrite H in Cy0. symmetry in Cy0. now apply negb_false_iff in Cy0.
    + rewrite H. apply compares_fle_refl. unfold compares. now rewrite H in Cy0.
Qed.

(** A [mouseMoveEvent] on a canvas that is not a histogram never puts a
    limit outside: an axis keeps its limits or gets limits that passed its
    guard. *)
Lemma mouseMoveEvent_not_outside (self : @InteractiveCanvas F)
    (event : @QMouseEvent F) :
  (plot_type self =? "histogram")%string = false ->
  not_outside self ->
  not_outside (state_of (mouseMoveEvent QPointF_bool self event)).
Proof.
  intros Hh Hin.
  pose proof Hin as (ax & ox & oy & Hax & Hox & Hoy & Hx0 & Hx1 & Hy1 & Hy0).
  destruct (pan_active QPointF_bool self) eqn:Hact.
  2: { rewrite (mouseMoveEvent_inactive self event Hact). exact Hin. }
  destruct (pan_active_start self Hact) as (_ & start & Hst & _).
  destruct (Z.eq_dec (width self) 0) as [Hw | Hw].
  { unfold mouseMoveEvent. rewrite Hact, Hst. apply Z.eqb_eq in Hw. rewrite Hw.
    exact Hin. }
  destruct (Z.eq_dec (height self) 0) as [Hht | Hht].
  { unfold mouseMoveEvent. rewrite Hact, Hst, Hax.
    apply Z.eqb_neq in Hw. apply Z.eqb_eq in Hht. rewrite Hw, Hht. exact Hin. }
  destruct (mouseMoveEvent_image self event ax start ox oy Hact Hst Hax Hw Hht Hh Hox Hoy)
    as (self' & Hret & Haxes & _ & _ & Hox' & Hoy' & _).
  rewrite Hret. cbn [state_of].
  eexists; exists ox, oy.
  split; [exact Haxes|]. split; [congruence|]. split; [congruence|].
  cbn [get_xlim get_ylim xlim ylim].
  assert (Gx : forall new, pan_x_guard ox new = true ->
                (fst new <? of_int 0) = false /\ (snd new >? snd ox) = false).
  { intros new H. unfold pan_x_guard in H.
    apply negb_true_iff, orb_false_iff in H. exact H. }
  assert (Gy : forall new, pan_y_guard oy new = true ->
                (snd new <? of_int 0) = false /\ (fst new >? fst oy) = false).
  { intros new H. unfold pan_y_guard in H.
    apply negb_true_iff, orb_false_iff in H. exact H. }
  destruct (pan_x_guard ox (pan_xlim (get_xlim ax) (pan_dx_data self ax start event))) eqn:E1;
    [apply Gx in E1 as [E1 E1']|];
    (destruct (pan_y_guard oy (pan_ylim (get_ylim ax) (pan_dy_data self ax start event)))
       eqn:E2; [apply Gy in E2 as [E2 E2']|]);
    (split; [|split; [|split]]); auto.
Qed.

Lemma run_moves_not_outside (moves : list (@QMouseEvent F))
    (self : @InteractiveCanvas F) :
  (plot_type self =? "histogram")%string = false ->
  not_outside self ->
  not_outside
    (run transData_inverted_transform QPointF_bool self (map MouseMove moves)).
Proof.
  revert self. induction moves as [|e moves IH]; intros self Hh Hin; [exact Hin|].
  cbn [map run handle]. apply IH.
  - destruct (mouseMoveEvent_limits self e) as (_ & _ & _ & _ & _ & _ & _ & Hp & _).
    cbv zeta in Hp. rewrite Hp. exact Hh.
  - now apply mouseMoveEvent_not_outside.
Qed.

(** C5. During an active pan on a canvas that is not a histogram, the x
    limits of the axes become the shifted limits exactly when these
    satisfy [_xlim[0] >= 0] and [_xlim[1] <= _orig_xlim[1]], and stay as
    they are otherwise; likewise the y limits with [_ylim[1] >= 0] and
    [_ylim[0] <= _orig_ylim[0]].  Hence axis limits within the original
    bounds stay within them under any sequence of mouse moves.  This holds
    on every carrier, binary64 included, for limits that are numbers: the
    shifted limits of the axis compare with 0 and with the original limit
    (in binary64: none of them is NaN), and so do the limits on the axes
    after the moves. *)
Theorem pan_keeps_limits_within_bounds (self : @InteractiveCanvas F) :
  (plot_type self =? "histogram")%string = false ->
  (forall (event : @QMouseEvent F) ax start orig_xlim orig_ylim,
     pan_active QPointF_bool self = true ->
     _pan_start self = Some start ->
     _axes self = Some ax ->
     width self <> 0%Z -> height self <> 0%Z ->
     _orig_xlim self = Some orig_xlim ->
     _orig_ylim self = Some orig_ylim ->
     let new_xlim := pan_xlim (get_xlim ax) (pan_dx_data self ax start event) in
     let new_ylim := pan_ylim (get_ylim ax) (pan_dy_data self ax start event) in
     exists self',
       mouseMoveEvent QPointF_bool self event = Returned self' /\
       (compares (fst new_xlim) (of_int 0) -> compares (snd orig_xlim) (snd new_xlim) ->
        axes_xlim self' =
        Some (if (fst new_xlim >=? of_int 0) && (snd new_xlim <=? snd orig_xlim)
              then new_xlim else get_xlim ax)) /\
       (compares (snd new_ylim) (of_int 0) -> compares (fst orig_ylim) (fst new_ylim) ->
        axes_ylim self' =
        Some (if (snd new_ylim >=? of_int 0) && (fst new_ylim <=? fst orig_ylim)
              then new_ylim else get_ylim ax))) /\
  (within_bounds self ->
   forall moves : list (@QMouseEvent F),
     limits_compare
       (run transData_inverted_transform QPointF_bool self (map MouseMove moves)) ->
     within_bounds
       (run transData_inverted_transform QPointF_bool self (map MouseMove moves))).
Proof.
  intros Hh. split.
  - intros event ax start ox oy Hact Hst Hax Hw Hht Hox Hoy. cbv zeta.
    destruct (mouseMoveEvent_image self event ax start ox oy Hact Hst Hax Hw Hht Hh Hox Hoy)
      as (self' & Hret & Haxes & _).
    exists self'. split; [exact Hret|].
    unfold axes_xlim, axes_ylim. rewrite Haxes. cbn [option_map get_xlim get_ylim xlim ylim].
    split; intros C0 C1.
    + now rewrite pan_x_guard_spec.
    + now rewrite pan_y_guard_spec.
  - intros Hin moves Hnum. apply not_outside_within_bounds; [|exact Hnum].
    apply run_moves_not_outside; [exact Hh|]. now apply within_bounds_not_outside.
Qed.

End PanBounds.

End CanvasFacts.

(* ===================================================================== *)
(** * 7. The two carriers                                                 *)
(* ===================================================================== *)

#[export] Instance Q_OrderLaws : OrderLaws Q.
Proof.
  split.
  - intros a b. cbn. rewrite negb_true_iff. intros H.
    apply Qle_bool_iff. destruct (Qlt_le_dec a b) as [Hlt | Hle].
    + now apply Qlt_le_weak.
    + apply Qle_bool_iff in Hle. congruence.
  - reflexivity.
Qed.

(** Any two rationals compare. *)
Lemma Q_compares (x y : Q) : compares x y.
Proof. reflexivity. Qed.

(** The comparisons of binary64 satisfy [OrderLaws] on all values: a
    comparison with NaN is false. *)
#[export] Instance Binary64_OrderLaws : OrderLaws float.
Proof.
  split.
  - intros a b. cbn. rewrite FloatAxioms.ltb_spec, FloatAxioms.leb_spec.
    unfold SFltb, SFleb.
    destruct (SFcompare (Prim2SF a) (Prim2SF b)) as [[]|]; auto; discriminate.
  - reflexivity.
Qed.

(** ** Values that compare *)

Lemma SFcompare_antisym (a b : spec_float) :
  SFcompare b a = option_map CompOpp (SFcompare a b).
Proof.
  destruct a as [sa|sa| |sa ma ea], b as [sb|sb| |sb mb eb]; cbn;
    try reflexivity;
    try (destruct sa; reflexivity); try (destruct sb; reflexivity);
    try (destruct sa, sb; reflexivity).
  destruct sa, sb; cbn; try reflexivity;
    rewrite (Z.compare_antisym ea eb);
    destruct (ea ?= eb)%Z eqn:E; cbn; try reflexivity;
    rewrite (ZC4 mb ma); try reflexivity.
Qed.

Lemma SFcompare_refl (a : spec_float) :
  a <> S754_nan -> SFcompare a a = Some Eq.
Proof.
  destruct a as [s|s| |s m e]; cbn; intros H; try reflexivity.
  - destruct s; reflexivity.
  - congruence.
  - rewrite Z.compare_refl, Pos.compare_cont_refl. destruct s; reflexivity.
Qed.

Lemma SFcompare_None (a b : spec_float) :
  SFcompare a b = None <-> a = S754_nan \/ b = S754_nan.
Proof.
  destruct a as [sa|sa| |sa ma ea], b as [sb|sb| |sb mb eb]; cbn;
    split; intros H; try discriminate; auto;
    destruct H as [H|H]; discriminate.
Qed.

Lemma is_nan_spec (v : float) : PrimFloat.is_nan v = false <-> Prim2SF v <> S754_nan.
Proof.
  unfold PrimFloat.is_nan. rewrite negb_false_iff, FloatAxioms.eqb_spec. unfold SFeqb.
  split.
  - intros H E. rewrite E in H. discriminate.
  - intros H. now rewrite SFcompare_refl.
Qed.

(** Two binary64 values compare exactly when neither is NaN. *)
Lemma binary64_compares (a b : float) :
  compares a b <-> PrimFloat.is_nan a = false /\ PrimFloat.is_nan b = false.
Proof.
  unfold compares. cbn [flt fle Binary64_Arith].
  rewrite !is_nan_spec, FloatAxioms.ltb_spec, FloatAxioms.leb_spec.
  unfold SFltb, SFleb. rewrite (SFcompare_antisym (Prim2SF a) (Prim2SF b)).
  pose proof (SFcompare_None (Prim2SF a) (Prim2SF b)) as HN.
  destruct (SFcompare (Prim2SF a) (Prim2SF b)) as [c|]; cbn.
  - split; [intros _|intros _; destruct c; reflexivity].
    split; intros E; enough (Some c = None) by discriminate; apply HN; auto.
  - split; [discriminate|]. intros [Ha Hb].
    destruct (proj1 HN eq_refl); contradiction.
Qed.

(** ** Exact arithmetic: widths and relative positions *)

Section ExactArithmetic.

Variable transData_inverted_transform : @Axes Q -> Q * Q -> Q * Q.
Variable QPointF_bool : @QPointF Q -> bool.
Local Open Scope Q_scope.

Lemma zoom_limits_width (data : Q) (lim : Q * Q) (factor : Q) :
  snd (zoom_limits data lim factor) - fst (zoom_limits data lim factor)
  == factor * (snd lim - fst lim).
Proof. destruct lim as [lo hi]. cbn. ring. Qed.

Lemma zoom_limits_relative (data : Q) (lim : Q * Q) (factor : Q) :
  ~ factor == 0 -> ~ snd lim - fst lim == 0 ->
  ~ snd (zoom_limits data lim factor) - fst (zoom_limits data lim factor) == 0 /\
  (data - fst (zoom_limits data lim factor))
  / (snd (zoom_limits data lim factor) - fst (zoom_limits data lim factor))
  == (data - fst lim) / (snd lim - fst lim).
Proof.
  intros Hf Hw. split.
  - rewrite zoom_limits_width. intros H. apply Qmult_integral in H. tauto.
  - destruct lim as [lo hi]. cbn in *. field. split; [exact Hw|].
    intros H. apply Hf.
    assert (E : factor * (hi - lo) == 0) by (rewrite <- H; ring).
    apply Qmult_integral in E. tauto.
Qed.

Lemma wheel_factor_nonzero (event : @QWheelEvent Q) : ~ wheel_factor event == 0.
Proof.
  unfold wheel_factor. destruct (angleDelta_y event <? 0)%Z; cbn; discriminate.
Qed.

(** C4, in exact arithmetic.  The candidate limits of a wheel event scale
    the visible range of each axis by the factor, [1.05] when
    [angleDelta().y() < 0] and [0.95] otherwise, and keep the cursor's data
    coordinate at the same relative position in the range whenever the
    range is not degenerate; with both zoom locks off these candidates are
    the limits the handler sets on a histogram canvas, and the ones it
    clamps on any other canvas. *)
Theorem wheel_zoom_scales_about_cursor (self : @InteractiveCanvas Q)
    (event : @QWheelEvent Q) (ax : @Axes Q) :
  _axes self = Some ax ->
  lock_x_zoom self = false ->
  lock_y_zoom self = false ->
  let factor := wheel_factor event in
  let xdata := fst (wheel_data transData_inverted_transform ax event) in
  let ydata := snd (wheel_data transData_inverted_transform ax event) in
  let xlim0 := get_xlim ax in
  let ylim0 := get_ylim ax in
  let new_xlim := wheel_new_xlim transData_inverted_transform ax event in
  let new_ylim := wheel_new_ylim transData_inverted_transform ax event in
  factor = (if (angleDelta_y event <? 0)%Z then 21 # 20 else 19 # 20) /\
  snd new_xlim - fst new_xlim == factor * (snd xlim0 - fst xlim0) /\
  snd new_ylim - fst new_ylim == factor * (snd ylim0 - fst ylim0) /\
  (~ snd xlim0 - fst xlim0 == 0 ->
   ~ snd new_xlim - fst new_xlim == 0 /\
   (xdata - fst new_xlim) / (snd new_xlim - fst new_xlim)
   == (xdata - fst xlim0) / (snd xlim0 - fst xlim0)) /\
  (~ snd ylim0 - fst ylim0 == 0 ->
   ~ snd new_ylim - fst new_ylim == 0 /\
   (ydata - fst new_ylim) / (snd new_ylim - fst new_ylim)
   == (ydata - fst ylim0) / (snd ylim0 - fst ylim0)) /\
  (forall orig_xlim orig_ylim,
     ((plot_type self =? "histogram")%string = true \/
      (_orig_xlim self = Some orig_xlim /\ _orig_ylim self = Some orig_ylim)) ->
     exists self',
       wheelEvent transData_inverted_transform self event = Returned self' /\
       _axes self' =
         Some {| xlim := if (plot_type self =? "histogram")%string then new_xlim
                         else clamped_xlim orig_xlim new_xlim;
                 ylim := if (plot_type self =? "histogram")%string then new_ylim
                         else clamped_ylim orig_ylim new_ylim |}).
Proof.
  intros Hax Hlx Hly. cbv zeta.
  split; [reflexivity|].
  split; [apply zoom_limits_width|].
  split; [apply zoom_limits_width|].
  split; [intros Hw; apply zoom_limits_relative; [apply wheel_factor_nonzero | exact Hw]|].
  split; [intros Hw; apply zoom_limits_relative; [apply wheel_factor_nonzero | exact Hw]|].
  intros ox oy Hcase.
  destruct (wheelEvent_returns transData_inverted_transform self event ax ox oy Hax Hcase)
    as (self' & Hret & Haxes).
  exists self'. split; [exact Hret|].
  rewrite Haxes, Hlx, Hly. reflexivity.
Qed.

(** C8, in exact arithmetic.  Whatever a [mouseMoveEvent] does, each
    axis keeps its limits or gets both of them moved by one offset (the x
    limits by minus [dx_data], the y limits by plus [dy_data]); so the
    axes keep the width of their x limits and the height of their y
    limits. *)
Theorem pan_preserves_width (self : @InteractiveCanvas Q) (event : @QMouseEvent Q)
    (ax : @Axes Q) :
  _axes self = Some ax ->
  exists ax',
    _axes (state_of (mouseMoveEvent QPointF_bool self event)) = Some ax' /\
    (get_xlim ax' = get_xlim ax \/
     exists start,
       pan_active QPointF_bool self = true /\ _pan_start self = Some start /\
       get_xlim ax' =
       (fst (get_xlim ax) - pan_dx_data self ax start event,
        snd (get_xlim ax) - pan_dx_data self ax start event)) /\
    (get_ylim ax' = get_ylim ax \/
     exists start,
       pan_active QPointF_bool self = true /\ _pan_start self = Some start /\
       get_ylim ax' =
       (fst (get_ylim ax) + pan_dy_data self ax start event,
        snd (get_ylim ax) + pan_dy_data self ax start event)) /\
    snd (get_xlim ax') - fst (get_xlim ax') == snd (get_xlim ax) - fst (get_xlim ax) /\
    snd (get_ylim ax') - fst (get_ylim ax') == snd (get_ylim ax) - fst (get_ylim ax).
Proof.
  intros Hax.
  destruct (mouseMoveEvent_limits QPointF_bool self event) as (Hlim & _).
  rewrite Hax in Hlim. destruct Hlim as (ax' & Hax' & Hx & Hy).
  exists ax'. split; [exact Hax'|].
  split; [exact Hx|]. split; [exact Hy|]. split.
  - destruct Hx as [-> | (start & _ & _ & ->)]; [reflexivity|].
    unfold pan_xlim. cbn. ring.
  - destruct Hy as [-> | (start & _ & _ & ->)]; [reflexivity|].
    unfold pan_ylim. cbn. ring.
Qed.

End ExactArithmetic.

(* ===================================================================== *)
(** * 8. The handlers run on concrete canvases                            *)
(* ===================================================================== *)

(** The handlers evaluated: a zoom step on the displayed image, in
    binary64, and a pan step of 4 pixels in each direction on the zoomed
    image, in exact arithmetic. *)
Example wheelEvent_image_binary64 :
  axes_xlim Binary64Demo.zoomed_canvas
    = Some (4.525000000000006, 612.525)%float /\
  axes_ylim Binary64Demo.zoomed_canvas
    = Some (460.525, 4.525000000000006)%float /\
  is_zoomed Binary64Demo.zoomed_canvas = true.
Proof. repeat split; vm_compute; reflexivity. Qed.

Example mouseMoveEvent_image_exact :
  match axes_xlim (state_of (mouseMoveEvent ExactDemo.QPointF_bool
                               ExactDemo.panning_canvas (ExactDemo.left_at 404 304))) with
  | Some (lo, hi) => (lo == 10 - 4 / 800 * 590 /\ hi == 600 - 4 / 800 * 590)%Q
  | None => False
  end.
Proof. vm_compute. split; reflexivity. Qed.

(* ===================================================================== *)
(** * 9. Instances of the theorems, and where binary64 rounds            *)
(* ===================================================================== *)

(** C1 on the displayed image, in binary64: the zoom step ends with limits
    inside the recorded bounds. *)
Lemma wheelEvent_clamps_to_bounds_binary64 :
  exists self' new_xlim new_ylim,
    wheelEvent Binary64Demo.transform Binary64Demo.image_canvas Binary64Demo.wheel_in
      = Returned self' /\
    _axes self' = Some {| xlim := new_xlim; ylim := new_ylim |} /\
    new_xlim = clamped_xlim (-0.5, 639.5)%float
                 (wheel_new_xlim Binary64Demo.transform Binary64Demo.image_axes
                    Binary64Demo.wheel_in) /\
    new_ylim = clamped_ylim (479.5, -0.5)%float
                 (wheel_new_ylim Binary64Demo.transform Binary64Demo.image_axes
                    Binary64Demo.wheel_in) /\
    (fst new_xlim >=? of_int 0)%py = true /\
    (snd new_xlim <=? 639.5%float)%py = true /\
    (snd new_ylim >=? of_int 0)%py = true /\
    (fst new_ylim <=? 479.5%float)%py = true.
Proof.
  apply (wheelEvent_clamps_to_bounds Binary64Demo.transform
           Binary64Demo.image_canvas Binary64Demo.wheel_in Binary64Demo.image_axes
           (-0.5, 639.5)%float (479.5, -0.5)%float);
    reflexivity.
Defined.

(** C7 on the histogram canvas, in binary64: a zoom step and a pan step
    put the computed limits on the axes, below 0 included. *)
Lemma histogram_limits_not_clamped_binary64 :
  (exists self',
     wheelEvent Binary64Demo.transform Binary64Demo.histogram_canvas
       Binary64Demo.wheel_out = Returned self' /\
     axes_xlim self' = Some (-6.050000000000011, 263.8)%float) /\
  (exists self',
     mouseMoveEvent Binary64Demo.QPointF_bool Binary64Demo.histogram_canvas
       (Binary64Demo.left_at 410 300) = Returned self' /\
     axes_xlim self' = Some (-4.2125, 252.7875)%float).
Proof.
  destruct (histogram_limits_not_clamped Binary64Demo.transform Binary64Demo.QPointF_bool
              Binary64Demo.histogram_canvas Binary64Demo.histogram_axes
              eq_refl eq_refl) as [Hwheel Hmove].
  split.
  - destruct (Hwheel Binary64Demo.wheel_out) as (self' & Hret & Haxes).
    exists self'. split; [exact Hret|].
    unfold axes_xlim. rewrite Haxes. vm_compute. reflexivity.
  - destruct (Hmove (Binary64Demo.left_at 410 300) {| x := 400%float; y := 300%float |}
                eq_refl eq_refl) as (self' & Hret & Haxes); [discriminate | discriminate |].
    exists self'. split; [exact Hret|].
    unfold axes_xlim. rewrite Haxes. vm_compute. reflexivity.
Defined.

(** C5 on the zoomed image, in binary64: the limits stay within the
    bounds through a pan that first moves the view and then asks for more
    than the image has. *)
Lemma pan_keeps_limits_within_bounds_binary64 :
  (plot_type Binary64Demo.pressed_canvas =? "histogram")%string = false /\
  within_bounds Binary64Demo.pressed_canvas /\
  limits_compare
    (run Binary64Demo.transform Binary64Demo.QPointF_bool Binary64Demo.pressed_canvas
       (map MouseMove Binary64Demo.pan_moves)) /\
  within_bounds
    (run Binary64Demo.transform Binary64Demo.QPointF_bool Binary64Demo.pressed_canvas
       (map MouseMove Binary64Demo.pan_moves)).
Proof.
  assert (Hin : within_bounds Binary64Demo.pressed_canvas).
  { eexists. eexists. eexists.
    split; [vm_compute; reflexivity|]. split; [vm_compute; reflexivity|].
    split; [vm_compute; reflexivity|]. split; [vm_compute; reflexivity|].
    split; [vm_compute; reflexivity|]. split; vm_compute; reflexivity. }
  assert (Hnum : limits_compare
                   (run Binary64Demo.transform Binary64Demo.QPointF_bool
                        Binary64Demo.pressed_canvas
                        (map MouseMove Binary64Demo.pan_moves))).
  { eexists. eexists. eexists.
    split; [vm_compute; reflexivity|]. split; [vm_compute; reflexivity|].
    split; [vm_compute; reflexivity|]. split; [vm_compute; reflexivity|].
    split; [vm_compute; reflexivity|]. split; vm_compute; reflexivity. }
  split; [reflexivity|]. split; [exact Hin|]. split; [exact Hnum|].
  exact (proj2 (pan_keeps_limits_within_bounds Binary64Demo.transform
                  Binary64Demo.QPointF_bool Binary64Demo.pressed_canvas eq_refl)
               Hin Binary64Demo.pan_moves Hnum).
Defined.

(** C4 on the zoomed image, in exact arithmetic. *)
Lemma wheel_zoom_scales_about_cursor_exact :
  _axes ExactDemo.panning_canvas = Some ExactDemo.zoomed_axes /\
  lock_x_zoom ExactDemo.panning_canvas = false /\
  lock_y_zoom ExactDemo.panning_canvas = false /\
  (snd (wheel_new_xlim ExactDemo.transform ExactDemo.zoomed_axes ExactDemo.wheel_in)
   - fst (wheel_new_xlim ExactDemo.transform ExactDemo.zoomed_axes ExactDemo.wheel_in)
   == (19 # 20) * (600 - 10))%Q.
Proof.
  split; [reflexivity|]. split; [reflexivity|]. split; [reflexivity|].
  exact (proj1 (proj2 (wheel_zoom_scales_about_cursor ExactDemo.transform
                         ExactDemo.panning_canvas ExactDemo.wheel_in
                         ExactDemo.zoomed_axes eq_refl eq_refl eq_refl))).
Defined.

(** C8 on the zoomed image, in exact arithmetic. *)
Lemma pan_preserves_width_exact :
  exists ax',
    _axes (state_of (mouseMoveEvent ExactDemo.QPointF_bool ExactDemo.panning_canvas
                       (ExactDemo.left_at 404 304))) = Some ax' /\
    (snd (get_xlim ax') - fst (get_xlim ax') == 600 - 10)%Q /\
    (snd (get_ylim ax') - fst (get_ylim ax') == 20 - 400)%Q.
Proof.
  destruct (pan_preserves_width ExactDemo.QPointF_bool ExactDemo.panning_canvas
              (ExactDemo.left_at 404 304) ExactDemo.zoomed_axes eq_refl)
    as (ax' & Hax & _ & _ & Hw & Hh).
  exists ax'. split; [exact Hax|]. split; [exact Hw|exact Hh].
Defined.

(** C4 as stated fails in binary64.  On the displayed image, a zoom step
    with the cursor at data position (100, 100) sets the candidate limits
    unclamped, and the cursor's relative position in the x range is
    0.15703124999999998 after the step against 0.15703125 before; a
    second step at the same position leaves an x range of
    577.5999999999999, where the factor times the range before is
    577.6. *)
Lemma wheel_zoom_binary64_rounding :
  exists ax1 ax2,
    _axes Binary64Demo.zoomed_canvas = Some ax1 /\
    get_xlim ax1 = wheel_new_xlim Binary64Demo.transform Binary64Demo.image_axes
                     Binary64Demo.wheel_in /\
    PrimFloat.eqb
      ((100 - fst (get_xlim ax1)) / (snd (get_xlim ax1) - fst (get_xlim ax1)))
      ((100 - fst (get_xlim Binary64Demo.image_axes))
       / (snd (get_xlim Binary64Demo.image_axes) - fst (get_xlim Binary64Demo.image_axes)))
    = false /\
    _axes (state_of (wheelEvent Binary64Demo.transform Binary64Demo.zoomed_canvas
                       Binary64Demo.wheel_in)) = Some ax2 /\
    get_xlim ax2 = wheel_new_xlim Binary64Demo.transform ax1 Binary64Demo.wheel_in /\
    PrimFloat.eqb (snd (get_xlim ax2) - fst (get_xlim ax2))
                  (0.95 * (snd (get_xlim ax1) - fst (get_xlim ax1))) = false.
Proof.
  eexists. eexists.
  split; [vm_compute; reflexivity|].
  split; [vm_compute; reflexivity|].
  split; [vm_compute; reflexivity|].
  split; [vm_compute; reflexivity|].
  split; vm_compute; reflexivity.
Qed.

(** C8 as stated fails in binary64.  On the image canvas after one zoom
    step, a pan from pixel (400, 300) to (404, 304) moves the y limits
    from (460.525, 4.525000000000006) to
    (457.48499999999996, 1.4850000000000056): their difference is -456.0
    before the move and -455.99999999999994 after it. *)
Lemma pan_width_binary64_rounding :
  exists ax ax',
    _axes Binary64Demo.pressed_canvas = Some ax /\
    _axes (state_of (mouseMoveEvent Binary64Demo.QPointF_bool Binary64Demo.pressed_canvas
                       (Binary64Demo.left_at 404 304))) = Some ax' /\
    get_ylim ax = (460.525, 4.525000000000006)%float /\
    get_ylim ax' = (457.48499999999996, 1.4850000000000056)%float /\
    PrimFloat.eqb (snd (get_ylim ax') - fst (get_ylim ax'))
                  (snd (get_ylim ax) - fst (get_ylim ax)) = false.
Proof.
  eexists. eexists.
  split; [vm_compute; reflexivity|].
  split; [vm_compute; reflexivity|].
  split; [vm_compute; reflexivity|].
  split; vm_compute; reflexivity.
Qed.

(* ===================================================================== *)
(** * 10. More on the drop handler: what a drop does to the layout        *)
(* ===================================================================== *)

Section LayoutFacts.

Context {QPoint QRect : Type}.
Variable contains : QRect -> QPoint -> bool.

Lemma layout_ids_app (l1 l2 : list (@QLayoutItem QRect)) :
  layout_ids (l1 ++ l2) = layout_ids l1 ++ layout_ids l2.
Proof. unfold layout_ids. apply flat_map_app. Qed.

Lemma layout_removeWidget_absent (layout : list (@QLayoutItem QRect))
    (w : @QWidget QRect) :
  ~ holds layout w -> layout_removeWidget layout w = layout.
Proof.
  unfold holds. induction layout as [|it rest IH]; intros Hno; [reflexivity|].
  cbn. destruct it as [w'|]; cbn in *.
  - unfold same_object. destruct (Nat.eqb (wid w') (wid w)) eqn:E.
    + apply Nat.eqb_eq in E. exfalso. apply Hno. now left.
    + f_equal. apply IH. intros H. apply Hno. now right.
  - f_equal. apply IH. exact Hno.
Qed.

Lemma layout_removeWidget_held (layout : list (@QLayoutItem QRect))
    (w : @QWidget QRect) :
  holds layout w ->
  Permutation (wid w :: layout_ids (layout_removeWidget layout w)) (layout_ids layout) /\
  S (List.length (layout_removeWidget layout w)) = List.length layout.
Proof.
  unfold holds. induction layout as [|it rest IH]; intros Hin; [destruct Hin|].
  cbn. destruct it as [w'|]; cbn in *.
  - unfold same_object. destruct (Nat.eqb (wid w') (wid w)) eqn:E.
    + apply Nat.eqb_eq in E. rewrite E. split; reflexivity.
    + destruct Hin as [Heq | Hin]; [apply Nat.eqb_neq in E; congruence|].
      destruct (IH Hin) as [Hp Hl]. cbn. split.
      * rewrite perm_swap. now apply perm_skip.
      * now rewrite Hl.
  - destruct (IH Hin) as [Hp Hl]. cbn. split; [exact Hp | now rewrite Hl].
Qed.

Lemma layout_insertWidget_ids (layout : list (@QLayoutItem QRect)) (index : Z)
    (w : @QWidget QRect) :
  Permutation (layout_ids (layout_insertWidget layout index w))
              (wid w :: layout_ids layout) /\
  List.length (layout_insertWidget layout index w) = S (List.length layout).
Proof.
  unfold layout_insertWidget. destruct (index <? 0).
  - rewrite layout_ids_app, length_app. cbn. split; [|lia].
    rewrite Permutation_app_comm. reflexivity.
  - rewrite layout_ids_app. cbn [layout_ids flat_map widget app].
    split.
    + rewrite <- Permutation_middle. apply perm_skip.
      fold (layout_ids (skipn (Z.to_nat index) layout)).
      rewrite <- layout_ids_app, firstn_skipn. reflexivity.
    + rewrite length_app. cbn [List.length].
      rewrite Nat.add_succ_r, <- length_app, firstn_skipn. reflexivity.
Qed.

(** X1. A drop of a toolbox never loses or duplicates a widget: the widgets of
    the layout after the drop are those before it, in another order, when
    the layout held the dragged toolbox, and those before it plus the
    dragged toolbox when it did not (a toolbox dragged from elsewhere);
    the number of items changes accordingly. *)
Theorem dropEvent_keeps_the_widgets (self : @MainWindow QRect)
    (event : @QDropEvent QPoint QRect) (src : @QWidget QRect) :
  drop_source event = Some src ->
  isinstance_Toolbox src = true ->
  let before := contentLayout self in
  let after := contentLayout (fst (dropEvent contains self event)) in
  (holds before src ->
   Permutation (layout_ids after) (layout_ids before) /\
   List.length after = List.length before) /\
  (~ holds before src ->
   Permutation (layout_ids after) (wid src :: layout_ids before) /\
   List.length after = S (List.length before)).
Proof.
  intros Hsrc Htb. cbv zeta. unfold dropEvent. rewrite Hsrc, Htb. cbn [fst contentLayout].
  set (index := find_insert_index contains self (drop_position event)).
  destruct (layout_insertWidget_ids (layout_removeWidget (contentLayout self) src) index src)
    as [Hp Hl].
  split.
  - intros Hheld. destruct (layout_removeWidget_held _ _ Hheld) as [Hp' Hl'].
    split; [now rewrite Hp | now rewrite Hl].
  - intros Hno. rewrite (layout_removeWidget_absent _ _ Hno) in *.
    split; assumption.
Qed.

Lemma layout_removeWidget_app (items rest : list (@QLayoutItem QRect))
    (w : @QWidget QRect) :
  holds items w ->
  layout_removeWidget (items ++ rest) w = layout_removeWidget items w ++ rest.
Proof.
  unfold holds. induction items as [|it items IH]; intros Hin; [destruct Hin|].
  cbn. destruct it as [w'|]; cbn in *.
  - unfold same_object. destruct (Nat.eqb (wid w') (wid w)) eqn:E; [reflexivity|].
    destruct Hin as [Heq | Hin]; [apply Nat.eqb_neq in E; congruence|].
    cbn. f_equal. now apply IH.
  - f_equal. now apply IH.
Qed.

(** X2. Where a toolbox of the layout lands when [add_new_box] is the last
    item.  Dropped onto a toolbox, it is re-inserted among the toolboxes
    and [add_new_box] stays last.  Dropped where no toolbox is, it is
    re-inserted at [count() - 1] of the layout it has just left, that is
    behind [add_new_box]: it becomes the last item. *)
Theorem dropEvent_around_add_new_box (self : @MainWindow QRect)
    (event : @QDropEvent QPoint QRect) (src footer : @QWidget QRect)
    (items : list (@QLayoutItem QRect)) :
  contentLayout self = items ++ [WidgetItem footer] ->
  wid footer = wid (add_new_box self) ->
  drop_source event = Some src ->
  isinstance_Toolbox src = true ->
  holds items src ->
  let after := contentLayout (fst (dropEvent contains self event)) in
  (forall i, first_drop_target contains self (drop_position event) i ->
     after = layout_insertWidget (layout_removeWidget items src) (Z.of_nat i) src
             ++ [WidgetItem footer]) /\
  ((forall i, ~ is_drop_target contains self (drop_position event) i) ->
     after = layout_removeWidget items src ++ [WidgetItem footer; WidgetItem src]).
Proof.
  intros Hlayout Hfooter Hsrc Htb Hheld. cbv zeta.
  unfold dropEvent. rewrite Hsrc, Htb. cbn [fst contentLayout].
  destruct (layout_removeWidget_held items src Hheld) as [_ Hlen].
  assert (Hrem : layout_removeWidget (contentLayout self) src
                 = layout_removeWidget items src ++ [WidgetItem footer])
    by (rewrite Hlayout; now apply layout_removeWidget_app).
  rewrite Hrem.
  set (removed := layout_removeWidget items src) in *.
  split.
  - intros i Hfirst.
    rewrite (find_insert_index_target contains self _ i Hfirst).
    assert (Hi : (i <= List.length removed)%nat).
    { destruct Hfirst as [(w & Hnth & Hne & _) _].
      rewrite Hlayout in Hnth.
      destruct (Nat.lt_ge_cases i (List.length items)) as [Hlt | Hge]; [lia|].
      exfalso.
      assert (Hbound : (i < List.length (items ++ [WidgetItem footer]))%nat)
        by (apply nth_error_Some; congruence).
      rewrite length_app in Hbound. cbn in Hbound.
      assert (i = List.length items) by lia. subst i.
      rewrite nth_error_app2, Nat.sub_diag in Hnth by lia. cbn in Hnth.
      injection Hnth as <-. congruence. }
    unfold layout_insertWidget.
    assert (Hneg : (Z.of_nat i <? 0) = false) by (apply Z.ltb_ge; lia).
    rewrite Hneg, Nat2Z.id.
    rewrite firstn_app, skipn_app.
    replace (i - List.length removed)%nat with 0%nat by lia.
    cbn [firstn skipn]. rewrite app_nil_r, <- app_assoc. reflexivity.
  - intros Hnone.
    rewrite (find_insert_index_no_target contains self _ Hnone).
    unfold count. rewrite Hlayout, length_app. cbn [List.length].
    unfold layout_insertWidget.
    assert (Hneg : (Z.of_nat (List.length items + 1) - 1 <? 0) = false)
      by (apply Z.ltb_ge; lia).
    rewrite Hneg.
    replace (Z.to_nat (Z.of_nat (List.length items + 1) - 1))
      with (List.length (removed ++ [WidgetItem footer]))
      by (rewrite length_app; cbn [List.length]; lia).
    rewrite firstn_all, skipn_all, <- app_assoc. reflexivity.
Qed.

(** X3. The empty layout.  [find_insert_index] is negative exactly when the
    layout is empty, where it is [-1]; [insertWidget] takes a negative
    index for "at the end", so a toolbox dropped on an empty layout becomes
    its only item. *)
Theorem find_insert_index_empty_layout (self : @MainWindow QRect) (pos : QPoint) :
  (find_insert_index contains self pos < 0 <-> contentLayout self = []) /\
  (contentLayout self = [] ->
   find_insert_index contains self pos = -1 /\
   forall (event : @QDropEvent QPoint QRect) src,
     drop_source event = Some src -> isinstance_Toolbox src = true ->
     contentLayout (fst (dropEvent contains self event)) = [WidgetItem src]).
Proof.
  assert (Hempty : contentLayout self = [] ->
                   forall p, find_insert_index contains self p = -1).
  { intros He p. unfold find_insert_index, count. rewrite He. reflexivity. }
  split; [split|].
  - intros Hneg. destruct (contentLayout self) as [|it rest] eqn:E; [reflexivity|].
    exfalso.
    destruct (first_drop_target_or_none contains self pos) as [[i Hi] | Hnone].
    + rewrite (find_insert_index_target contains self pos i Hi) in Hneg. lia.
    + rewrite (find_insert_index_no_target contains self pos Hnone) in Hneg.
      unfold count in Hneg. rewrite E in Hneg. cbn [List.length] in Hneg. lia.
  - intros He. rewrite (Hempty He pos). lia.
  - intros He. split; [exact (Hempty He pos)|].
    intros event src Hsrc Htb. unfold dropEvent. rewrite Hsrc, Htb.
    cbn [fst contentLayout]. rewrite (Hempty He (drop_position event)), He.
    reflexivity.
Qed.

(** ** Where a dropped toolbox lands *)

Lemma layout_removeWidget_first (l1 rest : list (@QLayoutItem QRect))
    (w : @QWidget QRect) :
  ~ holds l1 w ->
  layout_removeWidget (l1 ++ WidgetItem w :: rest) w = l1 ++ rest.
Proof.
  unfold holds. induction l1 as [|it l1 IH]; intros Hno.
  - cbn. unfold same_object. now rewrite Nat.eqb_refl.
  - cbn. destruct it as [w'|]; cbn in *.
    + unfold same_object. destruct (Nat.eqb (wid w') (wid w)) eqn:E.
      * apply Nat.eqb_eq in E. exfalso. apply Hno. now left.
      * f_equal. apply IH. intros H. apply Hno. now right.
    + f_equal. apply IH. exact Hno.
Qed.

Lemma layout_insertWidget_at_length (pre post : list (@QLayoutItem QRect))
    (w : @QWidget QRect) :
  layout_insertWidget (pre ++ post) (Z.of_nat (List.length pre)) w
  = pre ++ WidgetItem w :: post.
Proof.
  unfold layout_insertWidget.
  destruct (Z.of_nat (List.length pre) <? 0) eqn:E; [apply Z.ltb_lt in E; lia|].
  rewrite Nat2Z.id.
  rewrite firstn_app, Nat.sub_diag, firstn_all. cbn [firstn]. rewrite app_nil_r.
  rewrite skipn_app, Nat.sub_diag, skipn_all. reflexivity.
Qed.

(** X4. A toolbox dropped onto a toolbox further right lands behind it, one
    dropped onto a toolbox further left lands in front of it, and one
    dropped onto itself stays where it is: the index is found before the
    dragged box leaves the layout. *)
Theorem dropEvent_lands_by_direction (self : @MainWindow QRect)
    (event : @QDropEvent QPoint QRect) (src tgt : @QWidget QRect)
    (l1 l2 l3 : list (@QLayoutItem QRect)) :
  drop_source event = Some src -> isinstance_Toolbox src = true ->
  ~ holds l1 src -> ~ holds l2 src -> wid tgt <> wid src ->
  let after := contentLayout (fst (dropEvent contains self event)) in
  (contentLayout self = l1 ++ WidgetItem src :: l2 ++ WidgetItem tgt :: l3 ->
   first_drop_target contains self (drop_position event)
                     (List.length l1 + 1 + List.length l2) ->
   after = l1 ++ l2 ++ WidgetItem tgt :: WidgetItem src :: l3) /\
  (contentLayout self = l1 ++ WidgetItem tgt :: l2 ++ WidgetItem src :: l3 ->
   first_drop_target contains self (drop_position event) (List.length l1) ->
   after = l1 ++ WidgetItem src :: WidgetItem tgt :: l2 ++ l3) /\
  (contentLayout self = l1 ++ WidgetItem src :: l2 ->
   first_drop_target contains self (drop_position event) (List.length l1) ->
   after = contentLayout self).
Proof.
  intros Hsrc Hbox Hl1 Hl2 Htgt. cbv zeta.
  unfold dropEvent. rewrite Hsrc, Hbox. cbn [fst contentLayout].
  split; [|split]; intros Hlayout Hfirst;
    rewrite (find_insert_index_target contains self _ _ Hfirst), Hlayout.
  - rewrite (layout_removeWidget_first l1 _ src Hl1).
    replace (l1 ++ l2 ++ WidgetItem tgt :: l3)
      with ((l1 ++ l2 ++ [WidgetItem tgt]) ++ l3)
      by (rewrite <- !app_assoc; reflexivity).
    replace (List.length l1 + 1 + List.length l2)%nat
      with (List.length (l1 ++ l2 ++ [WidgetItem tgt]))
      by (rewrite !length_app; cbn; lia).
    rewrite layout_insertWidget_at_length. rewrite <- !app_assoc. reflexivity.
  - replace (l1 ++ WidgetItem tgt :: l2 ++ WidgetItem src :: l3)
      with ((l1 ++ WidgetItem tgt :: l2) ++ WidgetItem src :: l3)
      by (rewrite <- app_assoc; reflexivity).
    rewrite layout_removeWidget_first.
    + rewrite <- app_assoc. cbn [app].
      apply (layout_insertWidget_at_length l1 (WidgetItem tgt :: l2 ++ l3) src).
    + unfold holds in *. rewrite layout_ids_app. cbn.
      intros H. apply in_app_or in H. destruct H as [H | [H | H]]; auto.
  - rewrite (layout_removeWidget_first l1 _ src Hl1).
    apply layout_insertWidget_at_length.
Qed.

End LayoutFacts.

(** On the row of boxes: toolbox 1 dropped onto toolbox 2 and dropped
    where no toolbox is. *)
Lemma dropEvent_keeps_the_widgets_row :
  Permutation
    (layout_ids (contentLayout (fst (dropEvent BoxRow.contains BoxRow.window
        {| drop_position := 150; drop_source := Some (BoxRow.toolbox 1) |}))))
    [1; 2; 0]%nat /\
  List.length (contentLayout (fst (dropEvent BoxRow.contains BoxRow.window
        {| drop_position := 150; drop_source := Some (BoxRow.toolbox 1) |}))) = 3%nat.
Proof.
  apply (proj1 (dropEvent_keeps_the_widgets BoxRow.contains BoxRow.window
                  {| drop_position := 150; drop_source := Some (BoxRow.toolbox 1) |}
                  (BoxRow.toolbox 1) eq_refl eq_refl)).
  unfold holds. cbn. auto.
Defined.

Lemma dropEvent_around_add_new_box_row :
  layout_ids (contentLayout (fst (dropEvent BoxRow.contains BoxRow.window
     {| drop_position := 1000; drop_source := Some (BoxRow.toolbox 1) |})))
  = [2; 0; 1]%nat.
Proof.
  rewrite (proj2 (dropEvent_around_add_new_box BoxRow.contains BoxRow.window
                    {| drop_position := 1000; drop_source := Some (BoxRow.toolbox 1) |}
                    (BoxRow.toolbox 1)
                    {| wid := 0; isinstance_Toolbox := false; geometry := BoxRow.slot 2 |}
                    (firstn 2 (contentLayout BoxRow.window))
                    eq_refl eq_refl eq_refl eq_refl
                    (or_introl eq_refl))).
  - reflexivity.
  - intros i Ht. apply (accepts_drop_spec BoxRow.contains) in Ht.
    destruct i as [|[|[|[|i]]]]; vm_compute in Ht; discriminate Ht.
Defined.

(** Toolbox 1 of the row dropped onto toolbox 2, its right neighbour:
    it lands behind toolbox 2. *)
Lemma dropEvent_lands_by_direction_row :
  layout_ids (contentLayout (fst (dropEvent BoxRow.contains BoxRow.window
     {| drop_position := 150;
        drop_source := Some {| wid := 1; isinstance_Toolbox := true;
                               geometry := BoxRow.slot 0 |} |})))
  = [2; 1; 0]%nat.
Proof.
  rewrite (proj1 (dropEvent_lands_by_direction BoxRow.contains BoxRow.window
                    {| drop_position := 150;
                       drop_source := Some {| wid := 1; isinstance_Toolbox := true;
                                              geometry := BoxRow.slot 0 |} |}
                    {| wid := 1; isinstance_Toolbox := true; geometry := BoxRow.slot 0 |}
                    {| wid := 2; isinstance_Toolbox := true; geometry := BoxRow.slot 1 |}
                    [] [] (skipn 2 (contentLayout BoxRow.window))
                    eq_refl eq_refl (fun H => H) (fun H => H)
                    (fun H => Nat.neq_succ_diag_l 1 H))).
  - reflexivity.
  - reflexivity.
  - split.
    + apply (accepts_drop_spec BoxRow.contains). reflexivity.
    + intros j Hj Ht. apply (accepts_drop_spec BoxRow.contains) in Ht.
      destruct j as [|j]; [vm_compute in Ht; discriminate Ht|].
      exfalso. cbn in Hj. lia.
Defined.

(* ===================================================================== *)
(** * 11. More on the canvas: exceptions, recorded limits, redisplay      *)
(* ===================================================================== *)

Section CanvasMore.

Context {F : Type} {arith : Arith F}.
Variable transData_inverted_transform : @Axes F -> F * F -> F * F.
Variable QPointF_bool : @QPointF F -> bool.
Local Open Scope py_scope.

(** ** When the handlers raise *)

(** What lines 368-384 do to the recorded original limits: on an image
    canvas that is not zoomed yet, [configure_imgae_plot] runs before
    [is_zoomed] is set and records the limits just set on the axes. *)
Lemma wheel_apply_orig (self : @InteractiveCanvas F) (ax : @Axes F)
    (xlim0 ylim0 new_xlim new_ylim : F * F) (self' : @InteractiveCanvas F) :
  wheel_apply self ax xlim0 ylim0 new_xlim new_ylim = Returned self' ->
  if (plot_type self =? "image")%string && negb (is_zoomed self)
  then _orig_xlim self' = axes_xlim self' /\ _orig_ylim self' = axes_ylim self'
  else _orig_xlim self' = _orig_xlim self /\ _orig_ylim self' = _orig_ylim self.
Proof.
  unfold wheel_apply, configure_imgae_plot, configure_hist_plot, axes_xlim, axes_ylim.
  cbn.
  destruct (plot_type self =? "image")%string;
    [|destruct (plot_type self =? "histogram")%string];
    cbn; destruct (is_zoomed self); cbn;
    intros [= <-]; cbn; split; reflexivity.
Qed.

(** X5. [wheelEvent] raises nothing but [TypeError], and raises it exactly
    when the canvas has axes, is not a histogram and lacks a recorded
    original limit; the exception leaves the axes and [is_zoomed] as they
    were, with [_xlim] and [_ylim] already overwritten. *)
Theorem wheelEvent_raises_exactly (self : @InteractiveCanvas F)
    (event : @QWheelEvent F) :
  ((exists e s, wheelEvent transData_inverted_transform self event = Raised e s) <->
   (_axes self <> None /\
    (plot_type self =? "histogram")%string = false /\
    (_orig_xlim self = None \/ _orig_ylim self = None))) /\
  (forall e s,
     wheelEvent transData_inverted_transform self event = Raised e s ->
     e = TypeError /\
     _axes s = _axes self /\ is_zoomed s = is_zoomed self /\
     _orig_xlim s = _orig_xlim self /\ _orig_ylim s = _orig_ylim self /\
     exists lx ly, _xlim s = Lim lx /\ _ylim s = Lim ly).
Proof.
  destruct (_axes self) as [ax|] eqn:Hax.
  2: { unfold wheelEvent. rewrite Hax. split.
       - split; [intros (e & s & H); discriminate | intros (H & _); congruence].
       - intros e s H. discriminate. }
  destruct (plot_type self =? "histogram")%string eqn:Hh.
  { rewrite (wheelEvent_histogram _ self event ax Hax Hh).
    destruct (wheel_apply_spec self ax (get_xlim ax) (get_ylim ax)
                (wheel_new_xlim transData_inverted_transform ax event)
                (wheel_new_ylim transData_inverted_transform ax event))
      as (s' & Hs & _).
    rewrite Hs. split.
    - split; [intros (e & s & H); discriminate | intros (_ & H & _); discriminate].
    - intros e s H. discriminate. }
  destruct (_orig_xlim self) as [ox|] eqn:Hox;
    [destruct (_orig_ylim self) as [oy|] eqn:Hoy|].
  - rewrite (wheelEvent_image _ self event ax ox oy Hax Hh Hox Hoy).
    match goal with
    | |- context [wheel_apply ?a ?b ?c ?d ?e ?f] =>
        destruct (wheel_apply_spec a b c d e f) as (s' & Hs & _)
    end.
    rewrite Hs. split.
    + split; [intros (e & s & H); discriminate|].
      intros (_ & _ & [H | H]); discriminate.
    + intros e s H. discriminate.
  - unfold wheelEvent. rewrite Hax, Hh, Hox, Hoy. cbn. split.
    + split; [intros _; repeat split; auto; discriminate|].
      intros _. eexists. eexists. reflexivity.
    + intros e s [= <- <-]. cbn. repeat split; auto. eexists. eexists. split; reflexivity.
  - unfold wheelEvent. rewrite Hax, Hh, Hox. cbn. split.
    + split; [intros _; repeat split; auto; discriminate|].
      intros _. eexists. eexists. reflexivity.
    + intros e s [= <- <-]. cbn. repeat split; auto. eexists. eexists. split; reflexivity.
Qed.

(** X6. How [mouseMoveEvent] ends.  With no pan in progress it returns at
    once.  During a pan it raises [ZeroDivisionError] on a widget of width
    or height 0 and [AttributeError] without axes, leaving [self] as it
    was; it returns on a histogram canvas and on a canvas with both
    original limits recorded; and on another canvas it raises [TypeError]
    when a guard has to read an original limit that is not recorded, which
    the guard does unless its first test already rejects the limits. *)
Theorem mouseMoveEvent_outcome (self : @InteractiveCanvas F) (event : @QMouseEvent F) :
  (pan_active QPointF_bool self = false ->
   mouseMoveEvent QPointF_bool self event = Returned self) /\
  (pan_active QPointF_bool self = true -> width self = 0%Z ->
   mouseMoveEvent QPointF_bool self event = Raised ZeroDivisionError self) /\
  (pan_active QPointF_bool self = true -> width self <> 0%Z -> _axes self = None ->
   mouseMoveEvent QPointF_bool self event = Raised AttributeError self) /\
  (pan_active QPointF_bool self = true -> width self <> 0%Z -> _axes self <> None ->
   height self = 0%Z ->
   mouseMoveEvent QPointF_bool self event = Raised ZeroDivisionError self) /\
  (forall ax start,
     pan_active QPointF_bool self = true -> _pan_start self = Some start ->
     _axes self = Some ax -> width self <> 0%Z -> height self <> 0%Z ->
     let new_xlim := pan_xlim (get_xlim ax) (pan_dx_data self ax start event) in
     let new_ylim := pan_ylim (get_ylim ax) (pan_dy_data self ax start event) in
     let reads_orig_xlim := negb (fst new_xlim <? of_int 0) in
     let reads_orig_ylim := negb (snd new_ylim <? of_int 0) in
     ((exists s, mouseMoveEvent QPointF_bool self event = Raised TypeError s) <->
      ((plot_type self =? "histogram")%string = false /\
       ((reads_orig_xlim = true /\ _orig_xlim self = None) \/
        (reads_orig_ylim = true /\ _orig_ylim self = None)))) /\
     (forall e s, mouseMoveEvent QPointF_bool self event = Raised e s -> e = TypeError)).
Proof.
  split; [apply mouseMoveEvent_inactive|].
  split.
  { intros Hact Hw. destruct (pan_active_start QPointF_bool self Hact) as (_ & start & Hst & _).
    unfold mouseMoveEvent. rewrite Hact, Hst. apply Z.eqb_eq in Hw. now rewrite Hw. }
  split.
  { intros Hact Hw Hax. destruct (pan_active_start QPointF_bool self Hact) as (_ & start & Hst & _).
    unfold mouseMoveEvent. rewrite Hact, Hst, Hax. apply Z.eqb_neq in Hw. now rewrite Hw. }
  split.
  { intros Hact Hw Hax Hh. destruct (pan_active_start QPointF_bool self Hact) as (_ & start & Hst & _).
    unfold mouseMoveEvent. rewrite Hact, Hst. apply Z.eqb_neq in Hw. rewrite Hw.
    destruct (_axes self); [|congruence]. apply Z.eqb_eq in Hh. now rewrite Hh. }
  intros ax start Hact Hst Hax Hw Hh. cbv zeta.
  unfold mouseMoveEvent. rewrite Hact, Hst, Hax.
  apply Z.eqb_neq in Hw, Hh. rewrite Hw, Hh. cbv zeta.
  fold (pan_dx_data self ax start event). fold (pan_dy_data self ax start event).
  destruct (plot_type self =? "histogram")%string.
  { unfold pan_finish. split.
    - split; [intros (s & H); discriminate | intros (H & _); discriminate].
    - intros e s H. discriminate. }
  generalize (pan_xlim (get_xlim ax) (pan_dx_data self ax start event)) as new_xlim.
  generalize (pan_ylim (get_ylim ax) (pan_dy_data self ax start event)) as new_ylim.
  intros new_ylim new_xlim.
  unfold pan_set_xlim, pan_set_ylim, pan_finish. cbn.
  destruct (fst new_xlim <? of_int 0);
    [|destruct (_orig_xlim self) as [ox|]];
    (destruct (snd new_ylim <? of_int 0);
     [|destruct (_orig_ylim self) as [oy|]]);
    cbn; (split; [split|]);
    try (intros (s & H); discriminate);
    try (intros e s H; discriminate);
    try (intros e s [= <- <-]; reflexivity);
    try (intros _; eexists; reflexivity);
    try (intros (_ & [[H1 H2] | [H1 H2]]); discriminate);
    try (intros _; split; [reflexivity|]; auto).
Qed.

(** ** The limits a canvas records and remembers *)

(** X7. A wheel event on a canvas with axes and recorded original limits
    returns.  If the canvas shows an image and was not zoomed, its
    original limits are replaced by the limits the event has just put on
    the axes, which are the clamped candidate limits of an unlocked axis;
    on any other canvas the original limits stay. *)
Theorem wheelEvent_records_zoomed_limits (self : @InteractiveCanvas F)
    (event : @QWheelEvent F) (ax : @Axes F) (orig_xlim orig_ylim : F * F) :
  _axes self = Some ax ->
  _orig_xlim self = Some orig_xlim -> _orig_ylim self = Some orig_ylim ->
  exists self',
    wheelEvent transData_inverted_transform self event = Returned self' /\
    if (plot_type self =? "image")%string && negb (is_zoomed self)
    then
      _orig_xlim self' = axes_xlim self' /\ _orig_ylim self' = axes_ylim self' /\
      (lock_x_zoom self = false ->
       _orig_xlim self' =
       Some (clamped_xlim orig_xlim (wheel_new_xlim transData_inverted_transform ax event))) /\
      (lock_y_zoom self = false ->
       _orig_ylim self' =
       Some (clamped_ylim orig_ylim (wheel_new_ylim transData_inverted_transform ax event)))
    else _orig_xlim self' = Some orig_xlim /\ _orig_ylim self' = Some orig_ylim.
Proof.
  intros Hax Hox Hoy.
  destruct (plot_type self =? "histogram")%string eqn:Hh.
  - assert (Him : (plot_type self =? "image")%string = false).
    { apply String.eqb_eq in Hh. rewrite Hh. reflexivity. }
    rewrite (wheelEvent_histogram _ self event ax Hax Hh).
    match goal with
    | |- context [wheel_apply ?a ?b ?c ?d ?e ?f] =>
        destruct (wheel_apply_spec a b c d e f) as (s' & Hs & _);
        pose proof (wheel_apply_orig a b c d e f s' Hs) as Ho
    end.
    exists s'. split; [exact Hs|]. rewrite Him in *. cbn in *.
    destruct Ho as [-> ->]. auto.
  - rewrite (wheelEvent_image _ self event ax orig_xlim orig_ylim Hax Hh Hox Hoy).
    match goal with
    | |- context [wheel_apply ?a ?b ?c ?d ?e ?f] =>
        destruct (wheel_apply_spec a b c d e f) as (s' & Hs & Haxes & _);
        pose proof (wheel_apply_orig a b c d e f s' Hs) as Ho
    end.
    exists s'. split; [exact Hs|].
    destruct ((plot_type self =? "image")%string && negb (is_zoomed self)).
    + destruct Ho as [Hx Hy]. split; [exact Hx|]. split; [exact Hy|].
      unfold axes_xlim, axes_ylim in Hx, Hy. rewrite Haxes in Hx, Hy. cbn in Hx, Hy.
      split; intros Hl; rewrite Hl in *; assumption.
    + destruct Ho as [-> ->]. auto.
Qed.

(** What an active pan step that returns leaves on the canvas. *)
Lemma mouseMoveEvent_remembered (self self' : @InteractiveCanvas F)
    (event : @QMouseEvent F) (ax : @Axes F) (start : @QPointF F) :
  pan_active QPointF_bool self = true -> _pan_start self = Some start ->
  _axes self = Some ax ->
  mouseMoveEvent QPointF_bool self event = Returned self' ->
  _xlim self' = Lim (pan_xlim (get_xlim ax) (pan_dx_data self ax start event)) /\
  _ylim self' = Lim (pan_ylim (get_ylim ax) (pan_dy_data self ax start event)) /\
  is_zoomed self' = true /\
  _orig_xlim self' = _orig_xlim self /\ _orig_ylim self' = _orig_ylim self.
Proof.
  intros Hact Hst Hax. unfold mouseMoveEvent. rewrite Hact, Hst, Hax.
  destruct (width self =? 0)%Z; [discriminate|].
  destruct (height self =? 0)%Z; [discriminate|]. cbv zeta.
  fold (pan_dx_data self ax start event). fold (pan_dy_data self ax start event).
  generalize (pan_xlim (get_xlim ax) (pan_dx_data self ax start event)) as new_xlim.
  generalize (pan_ylim (get_ylim ax) (pan_dy_data self ax start event)) as new_ylim.
  intros new_ylim new_xlim.
  destruct (plot_type self =? "histogram")%string.
  { unfold pan_finish. intros [= <-]. cbn. repeat split. }
  unfold pan_set_xlim, pan_set_ylim, pan_finish. cbn.
  destruct (fst new_xlim <? of_int 0);
    [|destruct (_orig_xlim self) as [ox|] eqn:Hox];
    (destruct (snd new_ylim <? of_int 0);
     [|destruct (_orig_ylim self) as [oy|] eqn:Hoy]);
    cbn; try discriminate; intros [= <-]; cbn; repeat split; assumption.
Qed.

(** X8. After a pan step, the next call of [configure_imgae_plot] or
    [configure_hist_plot] puts the shifted limits on the axes, whatever
    was drawn on them in between and whether or not the guards of the pan
    step let them through; the original limits stay. *)
Theorem configure_applies_panned_limits (self self' : @InteractiveCanvas F)
    (event : @QMouseEvent F) (ax : @Axes F) (start : @QPointF F) :
  pan_active QPointF_bool self = true -> _pan_start self = Some start ->
  _axes self = Some ax ->
  mouseMoveEvent QPointF_bool self event = Returned self' ->
  forall plotted : @Axes F,
  exists s1 s2,
    configure_imgae_plot (set__axes self' (Some plotted)) = Returned s1 /\
    configure_hist_plot (set__axes self' (Some plotted)) = Returned s2 /\
    axes_xlim s1 = Some (pan_xlim (get_xlim ax) (pan_dx_data self ax start event)) /\
    axes_ylim s1 = Some (pan_ylim (get_ylim ax) (pan_dy_data self ax start event)) /\
    _axes s2 = _axes s1 /\
    _orig_xlim s1 = _orig_xlim self /\ _orig_ylim s1 = _orig_ylim self.
Proof.
  intros Hact Hst Hax Hret plotted.
  destruct (mouseMoveEvent_remembered self self' event ax start Hact Hst Hax Hret)
    as (Hx & Hy & Hz & Hox & Hoy).
  unfold configure_imgae_plot, configure_hist_plot, reapply_limits, axes_xlim, axes_ylim.
  cbn. rewrite Hz. cbn. rewrite Hx, Hy.
  eexists. eexists. split; [reflexivity|]. split; [reflexivity|].
  cbn. repeat split; assumption.
Qed.

(** X9. The zoom level survives a redraw: after a wheel event that returns,
    the next call of [configure_imgae_plot] or [configure_hist_plot] sets
    the axes back to the limits the wheel event left, whatever was drawn
    in between, and keeps the original limits. *)
Theorem configure_keeps_zoom_level (self self' : @InteractiveCanvas F)
    (event : @QWheelEvent F) :
  _axes self <> None ->
  wheelEvent transData_inverted_transform self event = Returned self' ->
  forall plotted : @Axes F,
  exists s1 s2,
    configure_imgae_plot (set__axes self' (Some plotted)) = Returned s1 /\
    configure_hist_plot (set__axes self' (Some plotted)) = Returned s2 /\
    _axes s1 = _axes self' /\ _axes s2 = _axes self' /\
    _orig_xlim s1 = _orig_xlim self' /\ _orig_ylim s1 = _orig_ylim self'.
Proof.
  intros Hsome Hret plotted.
  destruct (_axes self) as [ax|] eqn:Hax; [clear Hsome|congruence].
  assert (H : exists lx ly,
             _axes self' = Some {| xlim := lx; ylim := ly |} /\
             _xlim self' = Lim lx /\ _ylim self' = Lim ly /\ is_zoomed self' = true).
  { revert Hret. unfold wheelEvent. rewrite Hax. cbv zeta.
    destruct (negb (plot_type self =? "histogram")%string);
      [destruct (_orig_xlim self); [destruct (_orig_ylim self)|]|];
      try discriminate;
      match goal with
      | |- context [wheel_apply ?a ?b ?c ?d ?e ?f] =>
          destruct (wheel_apply_spec a b c d e f) as (s' & Hs & Haxes & Hx & Hy & Hz & _)
      end;
      rewrite Hs; intros [= <-]; eauto 6. }
  destruct H as (lx & ly & Haxes & Hx & Hy & Hz).
  unfold configure_imgae_plot, configure_hist_plot, reapply_limits.
  cbn. rewrite Hz. cbn. rewrite Hx, Hy, Haxes.
  eexists. eexists. split; [reflexivity|]. split; [reflexivity|].
  cbn. repeat split.
Qed.

(** X10. [reset_plot] forgets the zoom: it returns on a canvas with axes, and
    the next call of [configure_imgae_plot] leaves the axes as they were
    drawn and records their limits as the original ones, while the next
    call of [configure_hist_plot] sets the x limits to (-1, 256) and
    leaves the y limits as drawn. *)
Theorem reset_plot_forgets_zoom (self : @InteractiveCanvas F) :
  _axes self <> None ->
  exists s,
    reset_plot self = Returned s /\
    forall plotted : @Axes F,
    exists s1 s2,
      configure_imgae_plot (set__axes s (Some plotted)) = Returned s1 /\
      configure_hist_plot (set__axes s (Some plotted)) = Returned s2 /\
      _axes s1 = Some plotted /\
      _orig_xlim s1 = Some (get_xlim plotted) /\
      _orig_ylim s1 = Some (get_ylim plotted) /\
      _axes s2 = Some (set_xlim plotted (of_int (-1), of_int 256)) /\
      _orig_xlim s2 = _orig_xlim self /\ _orig_ylim s2 = _orig_ylim self.
Proof.
  intros Hsome. destruct (_axes self) as [ax|] eqn:Hax; [clear Hsome|congruence].
  unfold reset_plot. rewrite Hax. eexists. split; [reflexivity|].
  intros plotted.
  unfold configure_imgae_plot, configure_hist_plot, reapply_limits. cbn.
  eexists. eexists. split; [reflexivity|]. split; [reflexivity|].
  cbn. repeat split.
Qed.

(** ** What holds of a canvas from [__init__] on *)

Ltac split_cases :=
  repeat match goal with
         | |- context [match ?b with _ => _ end] =>
             lazymatch b with
             | context [match _ with _ => _ end] => fail
             | _ => destruct b eqn:?
             end
         end.

Lemma handle_well_formed (self : @InteractiveCanvas F) (ev : @event F) :
  well_formed self ->
  well_formed (state_of (handle transData_inverted_transform QPointF_bool self ev)).
Proof.
  intros (Hax & Horig & Hlim).
  destruct (_axes self) as [ax|] eqn:Eax; [clear Hax|congruence].
  assert (Hwf : well_formed self).
  { unfold well_formed. rewrite Eax. repeat split; try discriminate; tauto. }
  destruct ev; cbn [handle].
  - destruct (wheelEvent transData_inverted_transform self e) as [s|x s] eqn:E; cbn.
    + revert E. unfold wheelEvent. rewrite Eax. cbv zeta.
      destruct (negb (plot_type self =? "histogram")%string);
        [destruct (_orig_xlim self) eqn:Ex; [destruct (_orig_ylim self) eqn:Ey|]|];
        try discriminate;
        match goal with
        | |- context [wheel_apply ?a ?b ?c ?d ?e ?f] =>
            destruct (wheel_apply_spec a b c d e f) as (s' & Hs & Haxes & Hx & Hy & _);
            pose proof (wheel_apply_orig a b c d e f s' Hs) as Ho
        end;
        rewrite Hs; intros [= <-]; unfold well_formed; rewrite Haxes, Hx, Hy;
        (split; [discriminate|]); (split; [|exact I]);
        unfold axes_xlim, axes_ylim in Ho; rewrite Haxes in Ho; cbn in Ho;
        destruct ((plot_type self =? "image")%string && negb (is_zoomed self));
        destruct Ho as [-> ->]; try rewrite Ex; try rewrite Ey;
        try (split; discriminate); exact Horig.
    + revert E. unfold wheelEvent. rewrite Eax. cbv zeta.
      destruct (negb (plot_type self =? "histogram")%string);
        [destruct (_orig_xlim self) eqn:Ex; [destruct (_orig_ylim self) eqn:Ey|]|];
        try (match goal with
             | |- context [wheel_apply ?a ?b ?c ?d ?e ?f] =>
                 destruct (wheel_apply_spec a b c d e f) as (s' & Hs & _)
             end; rewrite Hs; discriminate);
        intros [= <- <-]; unfold well_formed; cbn; rewrite Eax, ?Ex, ?Ey;
        (split; [discriminate|]); (split; [|exact I]);
        rewrite ?Ex, ?Ey in Horig; exact Horig.
  - unfold mousePressEvent. destruct (is_LeftButton (button e)); exact Hwf.
  - pose proof (mouseMoveEvent_limits QPointF_bool self e) as H. cbv zeta in H.
    rewrite Eax in H. destruct H as ((ax' & Hax' & _) & _ & _ & Hox & Hoy & _).
    unfold well_formed. rewrite Hax', Hox, Hoy.
    split; [discriminate|]. split; [exact Horig|].
    unfold mouseMoveEvent. rewrite Eax.
    unfold pan_set_xlim, pan_set_ylim, pan_finish.
    repeat match goal with
           | |- context [match ?b with _ => _ end] =>
               lazymatch b with
               | context [match _ with _ => _ end] => fail
               | context [_xlim _] => fail
               | context [_ylim _] => fail
               | _ => destruct b eqn:?
               end
           end;
      cbn; try exact I; exact Hlim.
  - unfold mouseReleaseEvent. destruct (is_LeftButton (button e)); exact Hwf.
  - unfold configure_imgae_plot, well_formed. rewrite Eax.
    destruct (is_zoomed self); cbn.
    + split; [discriminate|]. split; [exact Horig|exact Hlim].
    + split; [discriminate|]. split; [split; discriminate|exact Hlim].
  - unfold configure_hist_plot, well_formed. rewrite Eax. cbn.
    split; [discriminate|]. split; [exact Horig|exact Hlim].
  - unfold reset_plot, well_formed. rewrite Eax. cbn.
    split; [discriminate|]. split; [exact Horig|exact I].
  - unfold set_plot_type, well_formed. rewrite Eax. cbn.
    split; [discriminate|]. split; [exact Horig|exact Hlim].
  - unfold reset_zoom, reset_plot, well_formed. rewrite Eax. cbn.
    split; [discriminate|]. split; [exact Horig|exact I].
  - exact Hwf.
  - exact Hwf.
  - exact Hwf.
Qed.

Lemma run_well_formed (evs : list (@event F)) (self : @InteractiveCanvas F) :
  well_formed self ->
  well_formed (run transData_inverted_transform QPointF_bool self evs).
Proof.
  revert self. induction evs as [|ev rest IH]; intros self Hwf; [exact Hwf|].
  cbn [run]. apply IH, handle_well_formed, Hwf.
Qed.

Lemma handle_raises_with_axes (self s : @InteractiveCanvas F) (ev : @event F) (e : exn) :
  _axes self <> None ->
  handle transData_inverted_transform QPointF_bool self ev = Raised e s ->
  e <> AttributeError.
Proof.
  intros Hax. destruct (_axes self) as [ax|] eqn:Eax; [clear Hax|congruence].
  destruct ev; cbn [handle].
  - unfold wheelEvent. rewrite Eax. cbv zeta.
    destruct (negb (plot_type self =? "histogram")%string);
      [destruct (_orig_xlim self); [destruct (_orig_ylim self)|]|];
      try (match goal with
           | |- context [wheel_apply ?a ?b ?c ?d ?e ?f] =>
               destruct (wheel_apply_spec a b c d e f) as (s' & Hs & _)
           end; rewrite Hs; discriminate);
      intros [= <- <-]; discriminate.
  - unfold mousePressEvent. destruct (is_LeftButton (button e0)); discriminate.
  - unfold mouseMoveEvent. rewrite Eax.
    unfold pan_set_xlim, pan_set_ylim, pan_finish.
    split_cases; try discriminate; intros [= <- <-]; discriminate.
  - unfold mouseReleaseEvent. destruct (is_LeftButton (button e0)); discriminate.
  - unfold configure_imgae_plot. rewrite Eax. discriminate.
  - unfold configure_hist_plot. rewrite Eax. discriminate.
  - unfold reset_plot. rewrite Eax. discriminate.
  - unfold set_plot_type. rewrite Eax. discriminate.
  - unfold reset_zoom, reset_plot. rewrite Eax. discriminate.
  - discriminate.
  - discriminate.
  - discriminate.
Qed.

(** X11. Whatever events and method calls a canvas receives after [__init__],
    it still has its axes, it has recorded both original limits or
    neither, and its two remembered limits are of one kind; so no handler
    and no method of the canvas raises [AttributeError]. *)
Theorem canvas_keeps_its_axes (w h : Z) (evs : list (@event F)) :
  let self := run transData_inverted_transform QPointF_bool (__init__ w h) evs in
  well_formed self /\
  forall ev e s,
    handle transData_inverted_transform QPointF_bool self ev = Raised e s ->
    e <> AttributeError.
Proof.
  cbv zeta.
  assert (Hwf : well_formed (run transData_inverted_transform QPointF_bool (__init__ w h) evs)).
  { apply run_well_formed. unfold well_formed, __init__. cbn.
    split; [discriminate|]. split; [tauto|exact I]. }
  split; [exact Hwf|].
  intros ev e s. apply handle_raises_with_axes. apply Hwf.
Qed.

(** ** The zoom-lock check boxes *)

Lemma handle_lock_flags (self : @InteractiveCanvas F) (ev : @event F) :
  let self' := state_of (handle transData_inverted_transform QPointF_bool self ev) in
  lock_x_zoom self' = match ev with ToggleLockX c => c | _ => lock_x_zoom self end /\
  lock_y_zoom self' = match ev with ToggleLockY c => c | _ => lock_y_zoom self end.
Proof.
  cbv zeta. destruct ev; cbn [handle].
  - destruct (wheelEvent_frame transData_inverted_transform self e) as (_ & Hx & Hy & _).
    auto.
  - unfold mousePressEvent. destruct (is_LeftButton (button e)); cbn; auto.
  - pose proof (mouseMoveEvent_limits QPointF_bool self e) as H. cbv zeta in H.
    destruct H as (_ & _ & _ & _ & _ & Hx & Hy & _). auto.
  - unfold mouseReleaseEvent. destruct (is_LeftButton (button e)); cbn; auto.
  - unfold configure_imgae_plot. destruct (_axes self); cbn; auto.
    destruct (is_zoomed self); cbn; auto.
  - unfold configure_hist_plot. destruct (_axes self); cbn; auto.
  - unfold reset_plot. destruct (_axes self); cbn; auto.
  - unfold set_plot_type. destruct (_axes self); cbn; auto.
  - unfold reset_zoom, reset_plot. destruct (_axes self); cbn; auto.
  - cbn. auto.
  - cbn. auto.
  - cbn. auto.
Qed.

Lemma emit_all_lock_flags (sgs : list (@signal F)) (top : @Canvases F) (cx cy : bool) :
  forallb through_check_boxes sgs = true ->
  lock_x_zoom (in_im_canvas top) = cx -> lock_x_zoom (out_im_canvas top) = cx ->
  lock_y_zoom (in_im_canvas top) = cy -> lock_y_zoom (out_im_canvas top) = cy ->
  let top' := emit_all transData_inverted_transform QPointF_bool top sgs in
  lock_x_zoom (in_im_canvas top') = x_zoom_lock_btn_isChecked sgs cx /\
  lock_x_zoom (out_im_canvas top') = x_zoom_lock_btn_isChecked sgs cx /\
  lock_y_zoom (in_im_canvas top') = y_zoom_lock_btn_isChecked sgs cy /\
  lock_y_zoom (out_im_canvas top') = y_zoom_lock_btn_isChecked sgs cy.
Proof.
  cbv zeta. revert top cx cy.
  induction sgs as [|sg rest IH]; intros top cx cy Hall Hxi Hxo Hyi Hyo.
  { cbn. auto. }
  cbn [forallb] in Hall. apply andb_true_iff in Hall as [Hsg Hall].
  cbn [emit_all].
  destruct sg as [c|c| |ev|ev].
  - cbn [x_zoom_lock_btn_isChecked y_zoom_lock_btn_isChecked].
    apply IH; auto.
  - cbn [x_zoom_lock_btn_isChecked y_zoom_lock_btn_isChecked].
    apply IH; auto.
  - cbn [x_zoom_lock_btn_isChecked y_zoom_lock_btn_isChecked].
    pose proof (handle_lock_flags (in_im_canvas top) ResetZoom) as Hi.
    pose proof (handle_lock_flags (out_im_canvas top) ResetZoom) as Ho.
    cbv zeta in Hi, Ho. cbn [handle] in Hi, Ho. destruct Hi as [Hi1 Hi2], Ho as [Ho1 Ho2].
    apply IH; auto; cbn [emit];
      destruct (reset_zoom (in_im_canvas top)); cbn in *; congruence.
  - pose proof (handle_lock_flags (in_im_canvas top) ev) as [Hi1 Hi2].
    destruct ev; try discriminate Hsg;
      cbn [x_zoom_lock_btn_isChecked y_zoom_lock_btn_isChecked];
      apply IH; auto; cbn [emit in_im_canvas out_im_canvas]; congruence.
  - pose proof (handle_lock_flags (out_im_canvas top) ev) as [Ho1 Ho2].
    destruct ev; try discriminate Hsg;
      cbn [x_zoom_lock_btn_isChecked y_zoom_lock_btn_isChecked];
      apply IH; auto; cbn [emit in_im_canvas out_im_canvas]; congruence.
Qed.

(** X12. The lock flags of both canvases follow the check boxes: after any
    signals of the zoom controls and any events and method calls on the
    canvases, [lock_x_zoom] of the input canvas and of the output canvas
    is the state of the Lock X Zoom check box, and [lock_y_zoom] that of
    the Lock Y Zoom check box, both unchecked at first. *)
Theorem zoom_locks_follow_check_boxes (w_in h_in w_out h_out : Z)
    (sgs : list (@signal F)) :
  forallb through_check_boxes sgs = true ->
  let top :=
    emit_all transData_inverted_transform QPointF_bool
             (init_top_layout w_in h_in w_out h_out) sgs in
  lock_x_zoom (in_im_canvas top) = x_zoom_lock_btn_isChecked sgs false /\
  lock_x_zoom (out_im_canvas top) = x_zoom_lock_btn_isChecked sgs false /\
  lock_y_zoom (in_im_canvas top) = y_zoom_lock_btn_isChecked sgs false /\
  lock_y_zoom (out_im_canvas top) = y_zoom_lock_btn_isChecked sgs false.
Proof.
  intros Hall. apply emit_all_lock_flags; [exact Hall| | | |]; reflexivity.
Qed.

(** X13. A pan needs a start position that counts as true.  After a press of
    the left button at a position that is false in a condition, and after
    an active pan step that returns at such a position, [_is_panning]
    holds but no later mouse move changes the canvas. *)
Theorem pan_needs_truthy_start (self : @InteractiveCanvas F) (e : @QMouseEvent F) :
  QPointF_bool (position e) = false ->
  (is_LeftButton (button e) = true ->
   let pressed := state_of (mousePressEvent self e) in
   _is_panning pressed = true /\
   forall moves : list (@QMouseEvent F),
     run transData_inverted_transform QPointF_bool pressed (map MouseMove moves)
     = pressed) /\
  (forall self',
     pan_active QPointF_bool self = true ->
     mouseMoveEvent QPointF_bool self e = Returned self' ->
     _is_panning self' = true /\
     forall moves : list (@QMouseEvent F),
       run transData_inverted_transform QPointF_bool self' (map MouseMove moves)
       = self').
Proof.
  intros Hfalse.
  assert (Hstay : forall s : @InteractiveCanvas F,
             pan_active QPointF_bool s = false ->
             forall moves : list (@QMouseEvent F),
               run transData_inverted_transform QPointF_bool s (map MouseMove moves) = s).
  { intros s Hs moves. induction moves as [|m rest IH]; [reflexivity|].
    cbn [map run handle]. rewrite (mouseMoveEvent_inactive QPointF_bool s m Hs).
    exact IH. }
  split.
  - intros Hleft. cbv zeta. unfold mousePressEvent. rewrite Hleft. cbn [state_of].
    split; [reflexivity|]. apply Hstay. unfold pan_active. cbn. rewrite Hfalse.
    reflexivity.
  - intros self' Hact Hret.
    destruct (pan_active_start QPointF_bool self Hact) as (Hpan & start & Hst & _).
    pose proof (mouseMoveEvent_limits QPointF_bool self e) as H. cbv zeta in H.
    rewrite Hret in H. cbn [state_of] in H.
    destruct H as (_ & Hp & _).
    assert (Hstart : _pan_start self' = Some (position e)).
    { revert Hret. unfold mouseMoveEvent. rewrite Hact, Hst.
      unfold pan_set_xlim, pan_set_ylim, pan_finish.
      split_cases; try discriminate; intros [= <-]; reflexivity. }
    split; [congruence|]. apply Hstay. unfold pan_active.
    rewrite Hstart, Hfalse. apply andb_false_r.
Qed.

End CanvasMore.

(** ** Limits within the original bounds, along the user's interaction *)

Section CanvasBounds.

Context {F : Type} {arith : Arith F} {laws : OrderLaws F}.
Variable transData_inverted_transform : @Axes F -> F * F -> F * F.
Variable QPointF_bool : @QPointF F -> bool.
Local Open Scope py_scope.

(** A [wheelEvent] on a canvas that is not a histogram never puts a limit
    outside: the limits of a locked axis stay, those of another axis are
    clamped, and original limits that are replaced are replaced by the
    limits on the axes. *)
Lemma wheelEvent_not_outside (self : @InteractiveCanvas F) (event : @QWheelEvent F) :
  (plot_type self =? "histogram")%string = false ->
  not_outside self ->
  not_outside (state_of (wheelEvent transData_inverted_transform self event)).
Proof.
  intros Hh (ax & ox & oy & Hax & Hox & Hoy & Hx0 & Hx1 & Hy1 & Hy0).
  rewrite (wheelEvent_image _ self event ax ox oy Hax Hh Hox Hoy).
  match goal with
  | |- context [wheel_apply ?a ?b ?c ?d ?e ?f] =>
      destruct (wheel_apply_spec a b c d e f) as (s' & Hs & Haxes & _);
      pose proof (wheel_apply_orig a b c d e f s' Hs) as Ho
  end.
  rewrite Hs. cbn [state_of]. unfold not_outside.
  unfold axes_xlim, axes_ylim in Ho. rewrite Haxes in Ho. cbn [option_map] in Ho.
  rewrite Haxes.
  assert (Hmin : forall bound v : F,
             (py_min bound v <=? bound) = true \/
             (py_min bound v >? bound) = false \/ py_min bound v = bound).
  { intros bound v. unfold py_min. destruct (v <? bound) eqn:E.
    - left. now apply flt_fle.
    - right. right. reflexivity. }
  destruct ((plot_type self =? "image")%string && negb (is_zoomed self));
    destruct Ho as [Ho1 Ho2]; rewrite Ho1, Ho2, ?Hox, ?Hoy;
    eexists; eexists; eexists;
    (split; [reflexivity|]); (split; [reflexivity|]); (split; [reflexivity|]);
    unfold clamped_xlim, clamped_ylim;
    destruct (lock_x_zoom self), (lock_y_zoom self);
    cbn [fst snd get_xlim get_ylim xlim ylim];
    (split; [|split; [|split]]);
    first [ assumption
          | left; apply py_max_zero_le
          | right; right; reflexivity
          | apply Hmin ].
Qed.

Lemma handle_interaction_not_outside (self : @InteractiveCanvas F) (ev : @event F) :
  is_interaction ev = true ->
  (plot_type self =? "histogram")%string = false ->
  not_outside self ->
  let self' := state_of (handle transData_inverted_transform QPointF_bool self ev) in
  (plot_type self' =? "histogram")%string = false /\ not_outside self'.
Proof.
  intros Hev Hh Hin. cbv zeta.
  destruct ev; try discriminate Hev; cbn [handle].
  - split.
    + destruct (wheelEvent_frame transData_inverted_transform self e)
        as (_ & _ & _ & Hp & _). now rewrite Hp.
    + now apply wheelEvent_not_outside.
  - unfold mousePressEvent. destruct (is_LeftButton (button e)); cbn; auto.
  - split.
    + pose proof (mouseMoveEvent_limits QPointF_bool self e) as H. cbv zeta in H.
      destruct H as (_ & _ & _ & _ & _ & _ & _ & Hp & _). now rewrite Hp.
    + now apply mouseMoveEvent_not_outside.
  - unfold mouseReleaseEvent. destruct (is_LeftButton (button e)); cbn; auto.
  - cbn. auto.
  - cbn. auto.
Qed.

(** X14. On a canvas that is not a histogram, axis limits within the
    original bounds stay within them while the user zooms and pans: along
    any sequence of wheel events, mouse presses, moves and releases and
    changes of the zoom locks, the wheel event that replaces the recorded
    original limits included.  This holds on every carrier, binary64
    included, when the limits on the axes at the end are numbers (in
    binary64: not NaN).  Redraws are not part of the sequence: a call of
    [configure_imgae_plot] after a pan step can put limits outside the
    bounds on the axes. *)
Theorem interaction_keeps_limits_within_bounds (evs : list (@event F))
    (self : @InteractiveCanvas F) :
  forallb is_interaction evs = true ->
  (plot_type self =? "histogram")%string = false ->
  within_bounds self ->
  limits_compare (run transData_inverted_transform QPointF_bool self evs) ->
  within_bounds (run transData_inverted_transform QPointF_bool self evs).
Proof.
  intros Hall Hh Hin Hnum. apply not_outside_within_bounds; [|exact Hnum].
  clear Hnum. apply within_bounds_not_outside in Hin.
  revert self Hall Hh Hin.
  induction evs as [|ev rest IH]; intros self Hall Hh Hin; [exact Hin|].
  cbn [forallb] in Hall. apply andb_true_iff in Hall as [Hev Hall].
  destruct (handle_interaction_not_outside self ev Hev Hh Hin) as [Hh' Hin'].
  cbn [run]. now apply IH.
Qed.

End CanvasBounds.

(** ** Exact arithmetic: zoom and pan steps composed *)

Section ExactSteps.

Variable transData_inverted_transform : @Axes Q -> Q * Q -> Q * Q.
Variable QPointF_bool : @QPointF Q -> bool.
Local Open Scope Q_scope.

Lemma extent_zoom_limits (data : Q) (lim : Q * Q) (factor : Q) :
  extent (zoom_limits data lim factor) == factor * extent lim.
Proof. destruct lim as [lo hi]. unfold extent. cbn. ring. Qed.

(** X15. In exact arithmetic, wheel events on a histogram canvas with both
    zoom locks off multiply the extent of each axis by the product of
    their factors, wherever the cursor is: a step in followed by a step
    out leaves 0.9975 of the extent, not the extent. *)
Theorem wheel_events_scale_extent (events : list (@QWheelEvent Q))
    (self : @InteractiveCanvas Q) (ax : @Axes Q) :
  _axes self = Some ax ->
  (plot_type self =? "histogram")%string = true ->
  lock_x_zoom self = false -> lock_y_zoom self = false ->
  exists ax',
    _axes (run transData_inverted_transform QPointF_bool self (map Wheel events))
    = Some ax' /\
    extent (get_xlim ax') == wheel_scale events * extent (get_xlim ax) /\
    extent (get_ylim ax') == wheel_scale events * extent (get_ylim ax).
Proof.
  revert self ax. induction events as [|e rest IH]; intros self ax Hax Hh Hlx Hly.
  { exists ax. split; [exact Hax|]. cbn. split; ring. }
  cbn [map run handle].
  rewrite (wheelEvent_histogram _ self e ax Hax Hh).
  match goal with
  | |- context [wheel_apply ?a ?b ?c ?d ?e ?f] =>
      destruct (wheel_apply_spec a b c d e f)
        as (s' & Hs & Haxes & _ & _ & _ & _ & Hlx' & Hly' & Hp & _)
  end.
  rewrite Hs. cbn [state_of]. rewrite Hlx, Hly in Haxes.
  destruct (IH s' _ Haxes) as (ax' & Hax' & Hx & Hy).
  - now rewrite Hp.
  - congruence.
  - congruence.
  - exists ax'. split; [exact Hax'|].
    cbn [get_xlim get_ylim xlim ylim] in Hx, Hy.
    unfold wheel_new_xlim, wheel_new_ylim in Hx, Hy.
    rewrite extent_zoom_limits in Hx, Hy.
    cbn [wheel_scale]. rewrite Hx, Hy. cbn. split; ring.
Qed.

Lemma inject_Z_nonzero (z : Z) : z <> 0%Z -> ~ inject_Z z == 0.
Proof. intros Hz H. apply Hz. unfold Qeq in H. cbn in H. lia. Qed.

(** X16. In exact arithmetic, pan steps on a histogram canvas add up: a move
    to one position followed by a move to a second one leaves the axes
    where a single move to the second position leaves them, provided the
    first position counts as true. *)
Theorem pan_steps_add_up (self : @InteractiveCanvas Q) (e1 e2 : @QMouseEvent Q)
    (ax : @Axes Q) :
  pan_active QPointF_bool self = true ->
  _axes self = Some ax ->
  width self <> 0%Z -> height self <> 0%Z ->
  (plot_type self =? "histogram")%string = true ->
  QPointF_bool (position e1) = true ->
  exists two_steps one_step,
    _axes (run transData_inverted_transform QPointF_bool self
               [MouseMove e1; MouseMove e2]) = Some two_steps /\
    _axes (run transData_inverted_transform QPointF_bool self [MouseMove e2])
    = Some one_step /\
    fst (get_xlim two_steps) == fst (get_xlim one_step) /\
    snd (get_xlim two_steps) == snd (get_xlim one_step) /\
    fst (get_ylim two_steps) == fst (get_ylim one_step) /\
    snd (get_ylim two_steps) == snd (get_ylim one_step).
Proof.
  intros Hact Hax Hw Hh Hp Htrue.
  destruct (pan_active_start QPointF_bool self Hact) as (Hpan & start & Hst & _).
  cbn [run handle].
  destruct (mouseMoveEvent_histogram QPointF_bool self e1 ax start Hact Hst Hax Hw Hh Hp)
    as (s1 & Hs1 & Hax1 & Hst1 & Hpan1 & _ & _ & _ & _ & Hp1 & Hw1 & Hh1).
  destruct (mouseMoveEvent_histogram QPointF_bool self e2 ax start Hact Hst Hax Hw Hh Hp)
    as (d & Hd & Haxd & _).
  rewrite Hs1, Hd. cbn [state_of].
  assert (Hact1 : pan_active QPointF_bool s1 = true).
  { unfold pan_active. rewrite Hpan1, Hpan, Hst1, Htrue. reflexivity. }
  rewrite <- Hw1 in Hw. rewrite <- Hh1 in Hh. rewrite <- Hp1 in Hp.
  destruct (mouseMoveEvent_histogram QPointF_bool s1 e2 _ _ Hact1 Hst1 Hax1 Hw Hh Hp)
    as (s2 & Hs2 & Hax2 & _).
  rewrite Hs2. cbn [state_of]. rewrite Hax2, Haxd.
  eexists. eexists. split; [reflexivity|]. split; [reflexivity|].
  apply inject_Z_nonzero in Hw, Hh. rewrite Hw1 in Hw. rewrite Hh1 in Hh.
  unfold pan_xlim, pan_ylim, pan_dx_data, pan_dy_data.
  rewrite Hw1, Hh1. destruct ax as [[xlo xhi] [ylo yhi]].
  cbn. repeat split; field; assumption.
Qed.

End ExactSteps.

(* ===================================================================== *)
(** * 12. Instances of the theorems on the canvas                         *)
(* ===================================================================== *)

(** The first zoom step on the displayed image, in binary64: the recorded
    original limits (-0.5, 639.5) and (479.5, -0.5) are replaced by the
    zoomed limits. *)
Lemma wheelEvent_records_zoomed_limits_binary64 :
  exists self',
    wheelEvent Binary64Demo.transform Binary64Demo.image_canvas Binary64Demo.wheel_in
    = Returned self' /\
    _orig_xlim self' =
    Some (clamped_xlim (-0.5, 639.5)%float
            (wheel_new_xlim Binary64Demo.transform Binary64Demo.image_axes
                            Binary64Demo.wheel_in)) /\
    _orig_xlim self' <> _orig_xlim Binary64Demo.image_canvas.
Proof.
  destruct (wheelEvent_records_zoomed_limits Binary64Demo.transform
              Binary64Demo.image_canvas Binary64Demo.wheel_in Binary64Demo.image_axes
              (-0.5, 639.5)%float (479.5, -0.5)%float
              eq_refl eq_refl eq_refl) as (self' & Hret & H).
  exists self'. split; [exact Hret|].
  change ((plot_type Binary64Demo.image_canvas =? "image")%string
          && negb (is_zoomed Binary64Demo.image_canvas)) with true in H.
  destruct H as (_ & _ & Hx & _).
  split; [exact (Hx eq_refl)|].
  rewrite (Hx eq_refl). vm_compute. discriminate.
Defined.

(** The pan step of 80 pixels to the right on the zoomed image, in exact
    arithmetic: the guard keeps the x limits (10, 600) on the axes, and
    the next [configure_imgae_plot] sets them to (-49, 541). *)
Lemma configure_applies_panned_limits_exact :
  axes_xlim ExactDemo.panned_canvas = Some (10, 600)%Q /\
  exists s1 s2,
    configure_imgae_plot
      (set__axes ExactDemo.panned_canvas (Some ExactDemo.zoomed_axes)) = Returned s1 /\
    configure_hist_plot
      (set__axes ExactDemo.panned_canvas (Some ExactDemo.zoomed_axes)) = Returned s2 /\
    axes_xlim s1 =
    Some (pan_xlim (10, 600)%Q
            (pan_dx_data ExactDemo.panning_canvas ExactDemo.zoomed_axes
                         {| x := 400%Q; y := 300%Q |} (ExactDemo.left_at 480 300))) /\
    axes_ylim s1 =
    Some (pan_ylim (400, 20)%Q
            (pan_dy_data ExactDemo.panning_canvas ExactDemo.zoomed_axes
                         {| x := 400%Q; y := 300%Q |} (ExactDemo.left_at 480 300))) /\
    _axes s2 = _axes s1 /\
    _orig_xlim s1 = _orig_xlim ExactDemo.panning_canvas /\
    _orig_ylim s1 = _orig_ylim ExactDemo.panning_canvas.
Proof.
  split; [vm_compute; reflexivity|].
  apply (configure_applies_panned_limits ExactDemo.QPointF_bool
           ExactDemo.panning_canvas ExactDemo.panned_canvas
           (ExactDemo.left_at 480 300) ExactDemo.zoomed_axes
           {| x := 400%Q; y := 300%Q |}).
  - vm_compute. reflexivity.
  - reflexivity.
  - reflexivity.
  - vm_compute. reflexivity.
Defined.

(** The zoom step on the displayed image, in binary64, and then a redraw
    of the whole image followed by [configure_imgae_plot]. *)
Lemma configure_keeps_zoom_level_binary64 :
  exists s1 s2,
    configure_imgae_plot
      (set__axes Binary64Demo.zoomed_canvas (Some Binary64Demo.image_axes))
    = Returned s1 /\
    configure_hist_plot
      (set__axes Binary64Demo.zoomed_canvas (Some Binary64Demo.image_axes))
    = Returned s2 /\
    _axes s1 = _axes Binary64Demo.zoomed_canvas /\
    _axes s2 = _axes Binary64Demo.zoomed_canvas /\
    _orig_xlim s1 = _orig_xlim Binary64Demo.zoomed_canvas /\
    _orig_ylim s1 = _orig_ylim Binary64Demo.zoomed_canvas.
Proof.
  apply (configure_keeps_zoom_level Binary64Demo.transform
           Binary64Demo.image_canvas Binary64Demo.zoomed_canvas Binary64Demo.wheel_in).
  - discriminate.
  - vm_compute. reflexivity.
Defined.

(** [reset_plot] on the zoomed image, and then a redraw. *)
Lemma reset_plot_forgets_zoom_binary64 :
  exists s,
    reset_plot Binary64Demo.zoomed_canvas = Returned s /\
    exists s1,
      configure_imgae_plot (set__axes s (Some Binary64Demo.image_axes)) = Returned s1 /\
      _axes s1 = Some Binary64Demo.image_axes /\
      _orig_xlim s1 = Some (-0.5, 639.5)%float.
Proof.
  destruct (reset_plot_forgets_zoom Binary64Demo.zoomed_canvas) as (s & Hs & H).
  - vm_compute. discriminate.
  - exists s. split; [exact Hs|].
    destruct (H Binary64Demo.image_axes) as (s1 & s2 & H1 & _ & Hax & Hox & _).
    exists s1. split; [exact H1|]. split; [exact Hax|exact Hox].
Defined.

(** The zoom controls at work, in binary64: after the signals the x lock
    is off and the y lock is on, on both canvases. *)
Lemma zoom_locks_follow_check_boxes_binary64 :
  lock_x_zoom
    (in_im_canvas
       (emit_all Binary64Demo.transform Binary64Demo.QPointF_bool
                 (init_top_layout 800 600 800 600) Binary64Demo.signals)) = false /\
  lock_x_zoom
    (out_im_canvas
       (emit_all Binary64Demo.transform Binary64Demo.QPointF_bool
                 (init_top_layout 800 600 800 600) Binary64Demo.signals)) = false /\
  lock_y_zoom
    (in_im_canvas
       (emit_all Binary64Demo.transform Binary64Demo.QPointF_bool
                 (init_top_layout 800 600 800 600) Binary64Demo.signals)) = true /\
  lock_y_zoom
    (out_im_canvas
       (emit_all Binary64Demo.transform Binary64Demo.QPointF_bool
                 (init_top_layout 800 600 800 600) Binary64Demo.signals)) = true.
Proof.
  exact (zoom_locks_follow_check_boxes Binary64Demo.transform Binary64Demo.QPointF_bool
           800 600 800 600 Binary64Demo.signals eq_refl).
Defined.

(** A press at pixel (0, 0) on the zoomed image, in binary64, with a
    point that is false when both its coordinates are 0: the canvas is
    panning, and a move to pixel (40, 30) leaves it as it is. *)
Lemma pan_needs_truthy_start_binary64 :
  Binary64Demo.QPointF_bool (position Binary64Demo.press_at_origin) = false /\
  _is_panning
    (state_of (mousePressEvent Binary64Demo.zoomed_canvas Binary64Demo.press_at_origin))
  = true /\
  run Binary64Demo.transform Binary64Demo.QPointF_bool
      (state_of (mousePressEvent Binary64Demo.zoomed_canvas Binary64Demo.press_at_origin))
      (map MouseMove [Binary64Demo.left_at 40 30])
  = state_of (mousePressEvent Binary64Demo.zoomed_canvas Binary64Demo.press_at_origin).
Proof.
  split; [vm_compute; reflexivity|].
  destruct (pan_needs_truthy_start Binary64Demo.transform Binary64Demo.QPointF_bool
              Binary64Demo.zoomed_canvas Binary64Demo.press_at_origin eq_refl)
    as (Hpress & _).
  destruct (Hpress eq_refl) as (Hpan & Hstay).
  split; [exact Hpan|]. exact (Hstay [Binary64Demo.left_at 40 30]).
Defined.

(** The user's interaction with the zoomed image, in binary64. *)
Lemma interaction_keeps_limits_within_bounds_binary64 :
  within_bounds Binary64Demo.pressed_canvas /\
  limits_compare
    (run Binary64Demo.transform Binary64Demo.QPointF_bool Binary64Demo.pressed_canvas
         Binary64Demo.interaction) /\
  within_bounds
    (run Binary64Demo.transform Binary64Demo.QPointF_bool Binary64Demo.pressed_canvas
         Binary64Demo.interaction).
Proof.
  assert (Hin : within_bounds Binary64Demo.pressed_canvas).
  { eexists. eexists. eexists.
    split; [vm_compute; reflexivity|]. split; [vm_compute; reflexivity|].
    split; [vm_compute; reflexivity|]. split; [vm_compute; reflexivity|].
    split; [vm_compute; reflexivity|]. split; vm_compute; reflexivity. }
  assert (Hnum : limits_compare
                   (run Binary64Demo.transform Binary64Demo.QPointF_bool
                        Binary64Demo.pressed_canvas Binary64Demo.interaction)).
  { eexists. eexists. eexists.
    split; [vm_compute; reflexivity|]. split; [vm_compute; reflexivity|].
    split; [vm_compute; reflexivity|]. split; [vm_compute; reflexivity|].
    split; [vm_compute; reflexivity|]. split; vm_compute; reflexivity. }
  split; [exact Hin|]. split; [exact Hnum|].
  exact (interaction_keeps_limits_within_bounds Binary64Demo.transform
           Binary64Demo.QPointF_bool Binary64Demo.interaction
           Binary64Demo.pressed_canvas eq_refl eq_refl Hin Hnum).
Defined.

(** A step in and a step out on the histogram, in exact arithmetic: the x
    extent 257 becomes 257 * 399/400. *)
Lemma wheel_events_scale_extent_exact :
  (wheel_scale [ExactDemo.wheel_in; ExactDemo.wheel_out] == 399 # 400)%Q /\
  exists ax',
    _axes (run ExactDemo.transform ExactDemo.QPointF_bool ExactDemo.histogram_canvas
               (map Wheel [ExactDemo.wheel_in; ExactDemo.wheel_out])) = Some ax' /\
    (extent (get_xlim ax') ==
     wheel_scale [ExactDemo.wheel_in; ExactDemo.wheel_out] * 257)%Q.
Proof.
  split; [vm_compute; reflexivity|].
  destruct (wheel_events_scale_extent ExactDemo.transform ExactDemo.QPointF_bool
              [ExactDemo.wheel_in; ExactDemo.wheel_out]
              ExactDemo.histogram_canvas ExactDemo.histogram_axes
              eq_refl eq_refl eq_refl eq_refl) as (ax' & Hax & Hx & _).
  exists ax'. split; [exact Hax|]. exact Hx.
Defined.

(** Two pan steps on the histogram, to pixel (410, 290) and on to pixel
    (380, 320), against one step to pixel (380, 320), in exact
    arithmetic. *)
Lemma pan_steps_add_up_exact :
  exists two_steps one_step,
    _axes (run ExactDemo.transform ExactDemo.QPointF_bool ExactDemo.histogram_canvas
               [MouseMove (ExactDemo.left_at 410 290);
                MouseMove (ExactDemo.left_at 380 320)]) = Some two_steps /\
    _axes (run ExactDemo.transform ExactDemo.QPointF_bool ExactDemo.histogram_canvas
               [MouseMove (ExactDemo.left_at 380 320)]) = Some one_step /\
    (fst (get_xlim two_steps) == fst (get_xlim one_step))%Q /\
    (snd (get_xlim two_steps) == snd (get_xlim one_step))%Q /\
    (fst (get_ylim two_steps) == fst (get_ylim one_step))%Q /\
    (snd (get_ylim two_steps) == snd (get_ylim one_step))%Q.
Proof.
  apply (pan_steps_add_up ExactDemo.transform ExactDemo.QPointF_bool
           ExactDemo.histogram_canvas
           (ExactDemo.left_at 410 290) (ExactDemo.left_at 380 320)
           ExactDemo.histogram_axes).
  - vm_compute. reflexivity.
  - reflexivity.
  - discriminate.
  - discriminate.
  - reflexivity.
  - vm_compute. reflexivity.
Defined.
